(** * Assistent.py: command handling and the reminder store

    A shallow embedding of [src/Assistent.py] and the properties of its
    command interpretation and reminder subsystem.

    Conventions of the embedding.
    - Text is a [string] whose characters are the code points 0..255
      (Latin-1); [lower], [strip], [split] and [isdigit] follow Python's
      [str] methods on that range.
    - A [datetime] is the number of microseconds since 0001-01-01 00:00:00,
      an integer of [0, MAXDATETIME]; arithmetic outside that range raises
      [OverflowError] as in Python.
    - The module-level state ([reminders]) and everything the program does
      to the outside (speech, microphone, HTTP, browser, keyboard) live in
      one [world] record threaded through a state-and-exception monad.  The
      outside's answers are oracle queues of the world; what the program
      asked of it is the [trace], oldest event first.
    - The clock is a field of the world that the program only reads; time
      passes between the steps modelled here, not inside them.
    - The two endless loops ([reminder_worker], [main_loop]) are given by
      one turn each; the list of reminders is touched only under
      [reminder_lock], so a turn of the worker and a call of
      [set_reminder_in] act on it one after the other.
    - [print] calls write only to the console and are left out.
    - [int] is embedded on the strings the program hands to it (strings of
      [str.isdigit] characters).  The interpreter's cap on the length of a
      decimal literal (4300 digits by default since Python 3.11, none
      before) is a setting of the environment. *)

From Stdlib Require Import ZArith List Bool Ascii String Lia Permutation.
From Stdlib Require Import DecimalString.
Import ListNotations.

Local Open Scope string_scope.
Local Open Scope Z_scope.

(** ** Python strings *)

Module Str.

Definition code (c : ascii) : N := N_of_ascii c.

Definition between (lo hi : N) (c : ascii) : bool :=
  (N.leb lo (code c) && N.leb (code c) hi)%bool.

(** [str.isspace] on one character: TAB..CR, FS..US, space, NEL, NBSP. *)
Definition isspace (c : ascii) : bool :=
  (between 9 13 c || between 28 32 c
   || N.eqb (code c) 133 || N.eqb (code c) 160)%bool.

(** [re]'s [\d] and the digits [int] accepts: 0..9. *)
Definition isdecimal (c : ascii) : bool := between 48 57 c.

(** [str.isdigit] on one character: 0..9 and the superscripts 1, 2, 3. *)
Definition isdigit (c : ascii) : bool :=
  (isdecimal c || N.eqb (code c) 178 || N.eqb (code c) 179
   || N.eqb (code c) 185)%bool.

Definition lower_char (c : ascii) : ascii :=
  if (between 65 90 c
      || (between 192 222 c && negb (N.eqb (code c) 215)))%bool
  then ascii_of_N (code c + 32) else c.

Fixpoint lower (s : string) : string :=
  match s with
  | EmptyString => EmptyString
  | String c s' => String (lower_char c) (lower s')
  end.

(** Truth value of a string: non-empty. *)
Definition truthy (s : string) : bool :=
  match s with EmptyString => false | String _ _ => true end.

Fixpoint lstrip (s : string) : string :=
  match s with
  | EmptyString => EmptyString
  | String c s' => if isspace c then lstrip s' else s
  end.

Fixpoint rstrip (s : string) : string :=
  match s with
  | EmptyString => EmptyString
  | String c s' =>
      let r := rstrip s' in
      if (isspace c && negb (truthy r))%bool then EmptyString
      else String c r
  end.

Definition strip (s : string) : string := rstrip (lstrip s).

Fixpoint startswith (s p : string) {struct p} : bool :=
  match p, s with
  | EmptyString, _ => true
  | String _ _, EmptyString => false
  | String a p', String b s' => (Ascii.eqb a b && startswith s' p')%bool
  end.

(** [p in s] for strings. *)
Fixpoint contains (p s : string) : bool :=
  if startswith s p then true
  else match s with
       | EmptyString => false
       | String _ s' => contains p s'
       end.

(** [s.replace(old, new)] for a non-empty [old]: occurrences are taken
    from the left and do not overlap.  [skip] counts the characters of
    the occurrence just replaced that are still to be dropped. *)
Fixpoint replace_from (old new s : string) (skip : nat) : string :=
  match s with
  | EmptyString => EmptyString
  | String c s' =>
      match skip with
      | S k => replace_from old new s' k
      | O =>
          if startswith s old
          then new ++ replace_from old new s' (Nat.pred (String.length old))
          else String c (replace_from old new s' O)
      end
  end.

Definition replace (s old new : string) : string :=
  replace_from old new s O.

(** [s.split()]: maximal runs of non-space characters. *)
Fixpoint split_from (s cur : string) : list string :=
  match s with
  | EmptyString => if truthy cur then [cur] else []
  | String c s' =>
      if isspace c
      then (if truthy cur then cur :: split_from s' EmptyString
            else split_from s' EmptyString)
      else split_from s' (cur ++ String c EmptyString)
  end.

Definition split (s : string) : list string := split_from s EmptyString.

Definition join (sep : string) (l : list string) : string :=
  String.concat sep l.

(** [''.join(filter(pred, s))] *)
Fixpoint filter (p : ascii -> bool) (s : string) : string :=
  match s with
  | EmptyString => EmptyString
  | String c s' => if p c then String c (filter p s') else filter p s'
  end.

Fixpoint all (p : ascii -> bool) (s : string) : bool :=
  match s with
  | EmptyString => true
  | String c s' => (p c && all p s')%bool
  end.

(** [x in l] and [l.index(x)] for a list of strings. *)
Definition mem (x : string) (l : list string) : bool :=
  existsb (String.eqb x) l.

Fixpoint index (x : string) (l : list string) : option nat :=
  match l with
  | [] => None
  | y :: l' => if String.eqb y x then Some O
               else option_map S (index x l')
  end.

(** [any(g in s for g in l)] *)
Definition contains_any (l : list string) (s : string) : bool :=
  existsb (fun g => contains g s) l.

(** [str(n)] for an integer. *)
Definition of_int (n : Z) : string := NilZero.string_of_int (Z.to_int n).

(** Value of a string of decimal digits, most significant first. *)
Fixpoint digits_value (s : string) (acc : Z) : Z :=
  match s with
  | EmptyString => acc
  | String c s' => digits_value s' (10 * acc + (Z.of_N (code c) - 48))
  end.

End Str.


(** ** The part of [re] the program uses

    A backtracking matcher in continuation-passing style: alternatives are
    tried left to right, repetition and the optional are greedy, and a
    group records the text its sub-pattern consumed.  Repetition is only
    needed over single-character classes. *)

Module Re.

Inductive cclass : Type :=
| Cdigit   (* \d *)
| Cany.    (* .  : any character but a newline *)

Definition cmatch (k : cclass) (c : ascii) : bool :=
  match k with
  | Cdigit => Str.isdecimal c
  | Cany => negb (N.eqb (Str.code c) 10)
  end.

Inductive regex : Type :=
| Lit (s : string)
| Seq (r1 r2 : regex)
| Alt (r1 r2 : regex)
| Opt (r : regex)
| Plus (k : cclass)
| Star (k : cclass)
| Group (n : nat) (r : regex).

(** A match object: the groups that took part, latest binding first. *)
Definition groups : Type := list (nat * string).

Definition cont : Type := string -> groups -> option groups.

Fixpoint drop (n : nat) (s : string) : string :=
  match n, s with
  | S n', String _ s' => drop n' s'
  | _, _ => s
  end.

Fixpoint take (n : nat) (s : string) : string :=
  match n, s with
  | S n', String c s' => String c (take n' s')
  | _, _ => EmptyString
  end.

(** The text between position [s] and the later position [s']. *)
Definition taken (s s' : string) : string :=
  take (String.length s - String.length s') s.

Fixpoint star (k : cclass) (s : string) (g : groups) (c : cont)
  : option groups :=
  match s with
  | String a s' =>
      if cmatch k a
      then match star k s' g c with
           | Some m => Some m
           | None => c s g
           end
      else c s g
  | EmptyString => c s g
  end.

Fixpoint run (r : regex) (s : string) (g : groups) (c : cont)
  : option groups :=
  match r with
  | Lit p => if Str.startswith s p then c (drop (String.length p) s) g
             else None
  | Seq r1 r2 => run r1 s g (fun s' g' => run r2 s' g' c)
  | Alt r1 r2 => match run r1 s g c with
                 | Some m => Some m
                 | None => run r2 s g c
                 end
  | Opt r1 => match run r1 s g c with
              | Some m => Some m
              | None => c s g
              end
  | Plus k => match s with
              | String a s' => if cmatch k a then star k s' g c else None
              | EmptyString => None
              end
  | Star k => star k s g c
  | Group n r1 => run r1 s g (fun s' g' => c s' ((n, taken s s') :: g'))
  end.

(** [re.search]: the match at the leftmost position that has one. *)
Fixpoint search (r : regex) (s : string) : option groups :=
  match run r s [] (fun _ g => Some g) with
  | Some m => Some m
  | None => match s with
            | EmptyString => None
            | String _ s' => search r s'
            end
  end.

(** [m.group(n)]; [None] for a group that took no part. *)
Fixpoint group (m : groups) (n : nat) : option string :=
  match m with
  | [] => None
  | (i, t) :: m' => if Nat.eqb i n then Some t else group m' n
  end.

End Re.

(** The pattern of line 166: the literal [remind me in ], group 1 of one or
    more digits, a space, group 2 one of minute, minutes, hour, hours (tried
    in that order), a space, an optional [to ], and group 3 the rest of the
    line. *)
Definition UNIT : Re.regex :=
  Re.Alt (Re.Lit "minute")
    (Re.Alt (Re.Lit "minutes") (Re.Alt (Re.Lit "hour") (Re.Lit "hours"))).

Definition reminder_pattern : Re.regex :=
  Re.Seq (Re.Lit "remind me in ")
  (Re.Seq (Re.Group 1 (Re.Plus Re.Cdigit))
  (Re.Seq (Re.Lit " ")
  (Re.Seq (Re.Group 2 UNIT)
  (Re.Seq (Re.Lit " ")
  (Re.Seq (Re.Opt (Re.Lit "to "))
          (Re.Group 3 (Re.Star Re.Cany))))))).

(** ** Exceptions, the world and the monad *)

Inductive exn : Type :=
| ValueError
| TypeError
| OverflowError
| WaitTimeoutError
| EOFError
| KeyboardInterrupt.

(** [except Exception] catches everything but [KeyboardInterrupt]. *)
Definition is_Exception (e : exn) : bool :=
  match e with
  | KeyboardInterrupt => false
  | _ => true
  end.

Definition is_KeyboardInterrupt (e : exn) : bool :=
  match e with
  | KeyboardInterrupt => true
  | _ => false
  end.

Inductive res (A : Type) : Type :=
| Ok (a : A)
| Raise (e : exn).

Arguments Ok {A} a.
Arguments Raise {A} e.

(** What one use of the microphone gives: [recognizer.listen] times out
    (line 82, outside the [try]), or the recogniser returns text, does not
    understand, or cannot reach its service. *)
Inductive audio : Type :=
| Recognized (text : string)
| WaitTimeout
| UnknownValue
| RequestError.

(** What [input()] gives: a line, or Ctrl-C. *)
Inductive keyboard : Type :=
| Line (text : string)
| Interrupt.

(** Outcome of the weather request: description, temperature and
    feels-like value as the f-string prints them, or [str(e)] of whatever
    the [try] block raised. *)
Inductive weather_reply : Type :=
| WeatherOk (desc temp feels : string)
| WeatherFailed (reason : string).

Inductive news_reply : Type :=
| NewsOk (titles : list string)
| NewsFailed (reason : string).

(** The events of the trace.  Each stands for a call, recorded when it is
    made; [speak] hands the text to a thread of its own, so the trace holds
    the order of the calls, not of the sounds.  The last event has no
    effect outside the program: it keeps the arguments of every call of
    [set_reminder_in], also of one that raises. *)
Inductive event : Type :=
| EvSpeak (text : string)                  (* speak(text) was called *)
| EvListen (timeout phrase_time_limit : Z) (* listen(...) was called *)
| EvInput                                  (* input() was called *)
| EvGet (url : string) (params : list (string * string))   (* requests.get *)
| EvBrowser (url : string)                 (* webbrowser.open(url) *)
| EvSleep (milliseconds : Z)               (* time.sleep *)
| EvSetReminderIn (minutes : Z) (message : string).
    (* set_reminder_in(minutes, message) was entered *)

(** A reminder is the pair (datetime, message) of line 96. *)
Abbreviation reminder := (Z * string)%type (only parsing).

Record world : Type := mkWorld {
  clock : Z;                               (* datetime.now() *)
  reminders : list reminder;               (* the module's [reminders] *)
  microphone : list audio;                 (* what will be heard *)
  stdin : list keyboard;                   (* what will be typed *)
  weather_api : string -> weather_reply;   (* api.openweathermap.org *)
  news_api : Z -> news_reply;              (* newsapi.org *)
  trace : list event                       (* what was done, oldest first *)
}.

Definition M (A : Type) : Type := world -> res A * world.

Definition ret {A} (a : A) : M A := fun w => (Ok a, w).

Definition raise {A} (e : exn) : M A := fun w => (Raise e, w).

Definition bind {A B} (m : M A) (f : A -> M B) : M B :=
  fun w => match m w with
           | (Ok a, w') => f a w'
           | (Raise e, w') => (Raise e, w')
           end.

Notation "x <- m ;; k" := (bind m (fun x => k))
  (at level 61, m at next level, right associativity).
Notation "m ;; k" := (bind m (fun _ => k))
  (at level 61, right associativity).

(** [try: body except <caught>: handler] *)
Definition try_except {A} (body : M A) (caught : exn -> bool)
  (handler : M A) : M A :=
  fun w => match body w with
           | (Ok a, w') => (Ok a, w')
           | (Raise e, w') => if caught e then handler w' else (Raise e, w')
           end.

Definition emit (e : event) : M unit :=
  fun w => (Ok tt, mkWorld (clock w) (reminders w) (microphone w) (stdin w)
                     (weather_api w) (news_api w) (trace w ++ [e])).

(** [for x in l: body x] *)
Fixpoint for_each {A} (l : list A) (body : A -> M unit) : M unit :=
  match l with
  | [] => ret tt
  | x :: l' => body x ;; for_each l' body
  end.

Definition set_reminders (rs : list reminder) : M unit :=
  fun w => (Ok tt, mkWorld (clock w) rs (microphone w) (stdin w)
                     (weather_api w) (news_api w) (trace w)).

Definition set_microphone (q : list audio) : M unit :=
  fun w => (Ok tt, mkWorld (clock w) (reminders w) q (stdin w)
                     (weather_api w) (news_api w) (trace w)).

Definition set_stdin (q : list keyboard) : M unit :=
  fun w => (Ok tt, mkWorld (clock w) (reminders w) (microphone w) q
                     (weather_api w) (news_api w) (trace w)).

Definition get {A} (field : world -> A) : M A := fun w => (Ok (field w), w).

(** ** datetime *)

(** 9999-12-31 23:59:59.999999 *)
Definition MAXDATETIME : Z := 3652059 * 86400 * 1000000 - 1.

Definition in_datetime_range (t : Z) : bool :=
  ((0 <=? t) && (t <=? MAXDATETIME))%bool.

(** [timedelta(minutes=m)] in microseconds; a timedelta holds between
    -999999999 days and 999999999 days 23:59:59.999999. *)
Definition timedelta_minutes (m : Z) : M Z :=
  let us := m * 60 * 1000000 in
  if ((-999999999 * 86400 * 1000000 <=? us)
      && (us <? 1000000000 * 86400 * 1000000))%bool
  then ret us else raise OverflowError.

Definition datetime_add (t d : Z) : M Z :=
  if in_datetime_range (t + d) then ret (t + d) else raise OverflowError.

Definition datetime_now : M Z := get clock.

(** ** Configuration *)

Definition DEFAULT_CITY : string := "New Delhi,IN".

Definition WAKE_WORDS : list string :=
  ["assistant"; "hey assistant"; "ok assistant"].

(** What the module takes from its environment at start-up, the
    interpreter's cap on decimal literals, and the two library functions
    that are used as black boxes. *)
Record environment : Type := mkEnv {
  OPENWEATHER_API_KEY : string;
  NEWSAPI_KEY : string;
  mic : bool;                          (* false: [mic is None] *)
  int_max_str_digits : nat;            (* sys.get_int_max_str_digits(); 0: no cap *)
  strftime : Z -> string -> string;    (* datetime.strftime *)
  requote_uri : string -> string       (* requests.utils.requote_uri *)
}.

(** The double quote, code point 34. *)
Definition dquote : string := String (ascii_of_N 34) EmptyString.

(** The degree sign, code point 176. *)
Definition degree : string := String (ascii_of_N 176) EmptyString.

(** How an f-string prints a value that may be [None]. *)
Definition fmt (o : option string) : string :=
  match o with
  | Some s => s
  | None => "None"
  end.

(** Truth value of a string that may be [None]. *)
Definition truthy_opt (o : option string) : bool :=
  match o with
  | Some s => Str.truthy s
  | None => false
  end.

(** The interpreter converts a decimal literal of this length: the cap is
    looked at only beyond 640 digits, the least value it can be set to. *)
Definition within_cap (env : environment) (s : string) : bool :=
  (Nat.leb (String.length s) 640
   || Nat.eqb (int_max_str_digits env) 0
   || Nat.leb (String.length s) (int_max_str_digits env))%bool.

Section Assistant.

Variable env : environment.

(** [int(s)] for a string of [str.isdigit] characters. *)
Definition int_ (s : string) : M Z :=
  if (Str.truthy s && Str.all Str.isdecimal s && within_cap env s)%bool
  then ret (Str.digits_value s 0) else raise ValueError.

(** ** TTS and speech recognition *)

Definition speak (text : string) : M unit := emit (EvSpeak text).

Definition listen (timeout phrase_time_limit : Z) : M string :=
  emit (EvListen timeout phrase_time_limit) ;;
  if negb (mic env) then ret EmptyString
  else
    q <- get microphone ;;
    match q with
    | [] => raise WaitTimeoutError
    | a :: q' =>
        set_microphone q' ;;
        match a with
        | Recognized text => ret (Str.lower text)
        | WaitTimeout => raise WaitTimeoutError
        | UnknownValue => ret EmptyString
        | RequestError => ret EmptyString
        end
    end.

(** ** Reminders *)

(** Lines 102-104, the block under [reminder_lock]: the due reminders
    leave the list and are handed back. *)
Definition pollAndRemoveDue (now : Z) : M (list reminder) :=
  rs <- get reminders ;;
  let due := filter (fun r => fst r <=? now) rs in
  set_reminders (filter (fun r => now <? fst r) rs) ;;
  ret due.

(** One turn of the [while True] of [reminder_worker]. *)
Definition reminder_worker_turn : M unit :=
  now <- datetime_now ;;
  due <- pollAndRemoveDue now ;;
  for_each due (fun r => speak ("Reminder: " ++ snd r)) ;;
  emit (EvSleep 1000).

Definition set_reminder_in (minutes : Z) (message : string) : M unit :=
  emit (EvSetReminderIn minutes message) ;;
  now <- datetime_now ;;
  d <- timedelta_minutes minutes ;;
  when <- datetime_add now d ;;
  rs <- get reminders ;;
  set_reminders (rs ++ [(when, message)]) ;;
  speak ("Okay. I will remind you in " ++ Str.of_int minutes
         ++ " minutes about " ++ message ++ ".").

(** ** Weather and news *)

Definition get_weather (city : string)
  : M (option string * option string) :=
  if negb (Str.truthy (OPENWEATHER_API_KEY env))
  then ret (None, Some "OpenWeather API key not set. Set OPENWEATHER_API_KEY environment variable.")
  else
    emit (EvGet "https://api.openweathermap.org/data/2.5/weather"
            [("q", city); ("appid", OPENWEATHER_API_KEY env);
             ("units", "metric")]) ;;
    api <- get weather_api ;;
    match api city with
    | WeatherOk desc temp feels =>
        ret (Some (desc ++ ", temperature " ++ temp ++ degree
                   ++ "C, feels like " ++ feels ++ degree ++ "C"), None)
    | WeatherFailed reason => ret (None, Some reason)
    end.

Definition get_top_news (count : Z)
  : M (option (list string) * option string) :=
  if negb (Str.truthy (NEWSAPI_KEY env))
  then ret (None, Some "NewsAPI key not set. Set NEWSAPI_KEY environment variable.")
  else
    emit (EvGet "https://newsapi.org/v2/top-headlines"
            [("apiKey", NEWSAPI_KEY env); ("country", "in");
             ("pageSize", Str.of_int count)]) ;;
    api <- get news_api ;;
    match api count with
    | NewsOk titles => ret (Some titles, None)
    | NewsFailed reason => ret (None, Some reason)
    end.

(** ** Command handling *)

(** Lines 199-207: the city named in a weather command. *)
Definition extract_city (text : string) : string :=
  let parts := Str.split text in
  if Str.mem "in" parts
  then match Str.index "in" parts with
       | Some idx => Str.join " " (skipn (S idx) parts)
       | None => DEFAULT_CITY
       end
  else DEFAULT_CITY.

(** Line 240: the query of a search command. *)
Definition search_query (text : string) : string :=
  Str.strip
    (Str.replace (Str.replace (Str.replace text "search for" EmptyString)
                    "google" EmptyString) "search" EmptyString).

Definition handle_reminder_in (text : string) : M unit :=
  match Re.search reminder_pattern text with
  | Some m =>
      match Re.group m 1, Re.group m 2 with
      | Some g1, Some unit_ =>
          value <- int_ g1 ;;
          let msg := if truthy_opt (Re.group m 3) then fmt (Re.group m 3)
                     else "your task" in
          let minutes := if Str.contains "hour" unit_ then value * 60
                         else value in
          set_reminder_in minutes msg
      | _, _ => raise TypeError
      end
  | None => speak "Please say: remind me in X minutes to do Y."
  end.

Definition handle_set_reminder : M unit :=
  speak "For when should I set the reminder? Say in how many minutes." ;;
  reply <- listen 5 8 ;;
  try_except
    (mins <- int_ (Str.filter Str.isdigit reply) ;;
     speak "What should I remind you about?" ;;
     msg <- listen 5 8 ;;
     let msg := if negb (Str.truthy msg) then "your task" else msg in
     set_reminder_in mins msg)
    is_Exception
    (speak "I couldn't parse the time. Reminder cancelled.").

Definition handle_weather (text : string) : M unit :=
  let city := extract_city text in
  r <- get_weather city ;;
  let (weather_text, err) := r in
  if truthy_opt err
  then speak ("Sorry, I couldn't fetch weather. " ++ fmt err)
  else speak ("Weather in " ++ city ++ ": " ++ fmt weather_text).

Definition handle_news : M unit :=
  r <- get_top_news 5 ;;
  let (headlines, err) := r in
  if truthy_opt err
  then speak ("Sorry, can't fetch news: " ++ fmt err)
  else
    speak "Here are the top headlines." ;;
    match headlines with
    | Some hs => for_each hs (fun h => speak h ;; emit (EvSleep 500))
    | None => raise TypeError
    end.

Definition handle_search (text : string) : M unit :=
  let query := search_query text in
  query <- (if negb (Str.truthy query)
            then speak "What should I search for?" ;; listen 5 8
            else ret query) ;;
  if Str.truthy query
  then
    speak ("Searching for " ++ query ++ " on the web.") ;;
    emit (EvBrowser ("https://www.google.com/search?q="
                     ++ requote_uri env query))
  else ret tt.

Definition handle_command (text : string) : M unit :=
  let text := Str.strip (Str.lower text) in
  if negb (Str.truthy text)
  then speak "I didn't catch that. Please repeat."
  else if Str.contains "remind me in" text
  then handle_reminder_in text
  else if (Str.startswith text "set reminder"
           || Str.startswith text "remind me to")%bool
  then handle_set_reminder
  else if Str.contains "weather" text
  then handle_weather text
  else if (Str.contains "news" text || Str.contains "headlines" text)%bool
  then handle_news
  else if Str.contains "time" text
  then
    now <- datetime_now ;;
    speak ("The time is " ++ strftime env now "%I:%M %p")
  else if Str.contains "date" text
  then
    now <- datetime_now ;;
    speak ("Today is " ++ strftime env now "%A, %B %d, %Y")
  else if (Str.startswith text "search for"
           || Str.startswith text "google"
           || Str.contains "search" text)%bool
  then handle_search text
  else if Str.contains_any ["hello"; "hi"; "hey"] text
  then speak "Hello! How can I help you?"
  else if Str.contains "thank" text
  then speak "You are welcome!"
  else speak "Sorry, I don't have a built-in action for that. I can search the web if you like. Say 'search' followed by your query.".

(** ** Main loop *)

Definition EXIT_WORDS : list string := ["quit"; "exit"; "stop assistant"].

Definition input : M string :=
  emit EvInput ;;
  q <- get stdin ;;
  match q with
  | [] => raise EOFError
  | k :: q' =>
      set_stdin q' ;;
      match k with
      | Line text => ret text
      | Interrupt => raise KeyboardInterrupt
      end
  end.

(** Lines 280-286 and again 296-302: what is done with the text heard as a
    command.  The result says whether the loop is left ([break]). *)
Definition on_command (cmd : string) : M bool :=
  if Str.truthy cmd
  then
    if Str.contains_any EXIT_WORDS cmd
    then speak "Goodbye!" ;; ret true
    else handle_command cmd ;; ret false
  else speak "I did not hear anything." ;; ret false.

(** One turn of the [while True] of [main_loop]. *)
Definition main_loop_turn : M bool :=
  heard <- try_except (listen 3 3) is_Exception (ret EmptyString) ;;
  if (Str.truthy heard && Str.contains_any WAKE_WORDS heard)%bool
  then
    speak "Yes?" ;;
    cmd <- listen 5 10 ;;
    on_command cmd
  else
    try_except
      (_ <- input ;;
       speak "Listening for your command." ;;
       cmd <- listen 6 12 ;;
       on_command cmd)
      is_KeyboardInterrupt
      (speak "Shutting down. Bye." ;; ret true).

(** At most [n] turns of the loop; [true] when the loop was left. *)
Fixpoint main_loop_turns (n : nat) : M bool :=
  match n with
  | O => ret false
  | S n' =>
      stop <- main_loop_turn ;;
      if stop then ret true else main_loop_turns n'
  end.

Definition main_loop (n : nat) : M bool :=
  speak ("Assistant is starting. Say " ++ dquote ++ "assistant" ++ dquote
         ++ " or press Enter to speak.") ;;
  main_loop_turns n.

End Assistant.

(** ** Vocabulary of the statements *)

(** The world [w] after the events [evs] were added to its trace. *)
Definition extend (w : world) (evs : list event) : world :=
  mkWorld (clock w) (reminders w) (microphone w) (stdin w)
    (weather_api w) (news_api w) (trace w ++ evs).

(** The world [w] with the pending reminders [rs]. *)
Definition with_reminders (w : world) (rs : list reminder) : world :=
  mkWorld (clock w) rs (microphone w) (stdin w)
    (weather_api w) (news_api w) (trace w).

Definition minutes_us (m : Z) : Z := m * 60 * 1000000.

(** A world and an environment for closed examples: the clock stands at
    day 739000 after 0001-01-01, nothing is pending, nobody speaks or
    types, both services are unreachable; the microphone exists and the
    API keys are set.  The two library functions are stand-ins:
    [strftime] hands back its format, [requote_uri] percent-encodes the
    spaces. *)
Definition quiet : world :=
  mkWorld (739000 * 86400 * 1000000) [] [] []
    (fun _ => WeatherFailed "unreachable")
    (fun _ => NewsFailed "unreachable") [].

Definition hearing (q : list audio) : world :=
  mkWorld (clock quiet) [] q [] (weather_api quiet) (news_api quiet) [].

Definition keyed : environment :=
  mkEnv "k1" "k2" true 4300 (fun _ f => f)
    (fun s => Str.replace s " " "%20").

(** The same without API keys. *)
Definition keyless : environment :=
  mkEnv EmptyString EmptyString true 4300 (strftime keyed)
    (requote_uri keyed).



(** Some rule before the search rule accepts the text. *)
Definition earlier_than_search (t : string) : bool :=
  (Str.contains "remind me in" t
   || Str.startswith t "set reminder" || Str.startswith t "remind me to"
   || Str.contains "weather" t
   || Str.contains "news" t || Str.contains "headlines" t
   || Str.contains "time" t
   || Str.contains "date" t)%bool.

(** ** Declarative reading of the patterns *)

(** [matches r s s' g g']: [r] can consume the text between the positions
    [s] and [s'], turning the groups [g] into [g'].  No priorities here:
    this says which matches exist, [Re.run] picks one. *)
Inductive matches
  : Re.regex -> string -> string -> Re.groups -> Re.groups -> Prop :=
| M_Lit p s' g : matches (Re.Lit p) (p ++ s') s' g g
| M_Seq r1 r2 s s1 s' g g1 g' :
    matches r1 s s1 g g1 -> matches r2 s1 s' g1 g' ->
    matches (Re.Seq r1 r2) s s' g g'
| M_AltL r1 r2 s s' g g' :
    matches r1 s s' g g' -> matches (Re.Alt r1 r2) s s' g g'
| M_AltR r1 r2 s s' g g' :
    matches r2 s s' g g' -> matches (Re.Alt r1 r2) s s' g g'
| M_OptSome r s s' g g' :
    matches r s s' g g' -> matches (Re.Opt r) s s' g g'
| M_OptNone r s g : matches (Re.Opt r) s s g g
| M_Plus k cs s' g :
    Str.truthy cs = true -> Str.all (Re.cmatch k) cs = true ->
    matches (Re.Plus k) (cs ++ s') s' g g
| M_Star k cs s' g :
    Str.all (Re.cmatch k) cs = true ->
    matches (Re.Star k) (cs ++ s') s' g g
| M_Group n r s s' g g' :
    matches r s s' g g' ->
    matches (Re.Group n r) s s' g ((n, Re.taken s s') :: g').

(** The text up to the first newline, and the text from it on. *)
Fixpoint first_line (s : string) : string :=
  match s with
  | EmptyString => EmptyString
  | String c s' =>
      if Re.cmatch Re.Cany c then String c (first_line s') else EmptyString
  end.

Fixpoint next_lines (s : string) : string :=
  match s with
  | EmptyString => EmptyString
  | String c s' => if Re.cmatch Re.Cany c then next_lines s' else s
  end.

(** The text without a leading "to ". *)
Definition after_to (s : string) : string :=
  if Str.startswith s "to " then Re.drop 3 s else s.

(** The message a reminder command carries after its unit. *)
Definition message_of (rest : string) : string := first_line (after_to rest).

Definition UNITS : list string := ["minute"; "minutes"; "hour"; "hours"].

(** A well-formed reminder command somewhere in the text: the trigger, a
    space, digits, a space, a unit, a space. *)
Definition duration_shape (t : string) : Prop :=
  exists pre ds u rest,
    t = pre ++ "remind me in " ++ ds ++ " " ++ u ++ " " ++ rest
    /\ Str.truthy ds = true
    /\ Str.all Str.isdecimal ds = true
    /\ In u UNITS.

(** Lines 168-174 on the groups of a match. *)
Definition minutes_of (ds u : string) : Z :=
  if Str.contains "hour" u then Str.digits_value ds 0 * 60
  else Str.digits_value ds 0.

Definition message_or_default (rest : string) : string :=
  if Str.truthy (message_of rest) then message_of rest else "your task".

(** The last character of the text is a space character. *)
Fixpoint ends_in_space (s : string) : bool :=
  match s with
  | EmptyString => false
  | String c s' => if Str.truthy s' then ends_in_space s' else Str.isspace c
  end.

(** The first character of the text is a space character. *)
Definition starts_with_space (s : string) : bool :=
  match s with
  | EmptyString => false
  | String c _ => Str.isspace c
  end.

(** ** The search query as the specification words it

    The specification builds the query by deleting every occurrence of
    three substrings, one substring after the other, and trimming what
    remains.  The two relations say this without [Str.replace] and
    [Str.strip]; [search_query] above is line 240 of the source. *)

(** [deletes old s r]: [r] is [s] without its occurrences of [old].  The
    text is read from the left: where an occurrence begins it is left out
    and reading goes on behind it, any other character is kept.  No
    occurrence is passed over, and what is left of [s] behind the first
    occurrence is treated alike. *)
Inductive deletes (old : string) : string -> string -> Prop :=
| D_End : deletes old EmptyString EmptyString
| D_Occurrence s r : deletes old s r -> deletes old (old ++ s) r
| D_Keep c s r :
    Str.startswith (String c s) old = false ->
    deletes old s r -> deletes old (String c s) (String c r).

(** [trimmed s q]: [q] is [s] without the space characters at its two
    ends, all of them and nothing else. *)
Definition trimmed (s q : string) : Prop :=
  exists l r,
    s = l ++ q ++ r
    /\ Str.all Str.isspace l = true
    /\ Str.all Str.isspace r = true
    /\ starts_with_space q = false
    /\ ends_in_space q = false.

(** [query_of t q]: [q] is [t] with every "search for" deleted, then every
    "google", then every "search", and trimmed. *)
Definition query_of (t q : string) : Prop :=
  exists a b c,
    deletes "search for" t a
    /\ deletes "google" a b
    /\ deletes "search" b c
    /\ trimmed c q.

(** ** What a computation adds to the trace *)

(** [adds P Q m]: from every world, [m] leaves the trace it found and
    appends only events that satisfy [P]; a value it returns satisfies
    [Q]. *)
Definition adds (P : event -> Prop) {A} (Q : A -> Prop) (m : M A) : Prop :=
  forall w,
    exists evs,
      trace (snd (m w)) = (trace w ++ evs)%list
      /\ Forall P evs
      /\ match fst (m w) with
         | Ok a => Q a
         | Raise _ => True
         end.

Definition anything {A} (a : A) : Prop := True.

(** Events other than a call of [set_reminder_in] with negative minutes. *)
Definition call_is_nonnegative (e : event) : Prop :=
  match e with
  | EvSetReminderIn minutes _ => 0 <= minutes
  | _ => True
  end.

(** The utterances of the reminder dialog. *)
Abbreviation ASK_WHEN :=
  "For when should I set the reminder? Say in how many minutes."
  (only parsing).

Abbreviation ASK_WHAT := "What should I remind you about?" (only parsing).

Abbreviation CANCELLED :=
  "I couldn't parse the time. Reminder cancelled." (only parsing).

(** ** Order of the rules *)

(** The classifier as the specification describes it: matchers tried in a
    fixed order, each with its action; the first that accepts the text
    decides, and the fallback runs when none does. *)
Definition rule : Type := ((string -> bool) * (string -> M unit))%type.

Fixpoint first_match (rules : list rule) (fallback : M unit) (text : string)
  : M unit :=
  match rules with
  | [] => fallback
  | (accepts, action) :: rules' =>
      if accepts text then action text
      else first_match rules' fallback text
  end.

Definition FALLBACK : string :=
  "Sorry, I don't have a built-in action for that. I can search the web if you like. Say 'search' followed by your query.".

(** The rules of [handle_command], in the order of the source; there is no
    exit rule among them. *)
Definition rules_in_order (env : environment) : list rule :=
  [ (Str.contains "remind me in", handle_reminder_in env);
    (fun t => (Str.startswith t "set reminder"
               || Str.startswith t "remind me to")%bool,
     fun _ => handle_set_reminder env);
    (Str.contains "weather", handle_weather env);
    (fun t => (Str.contains "news" t || Str.contains "headlines" t)%bool,
     fun _ => handle_news env);
    (Str.contains "time",
     fun _ => now <- datetime_now ;;
              speak ("The time is " ++ strftime env now "%I:%M %p"));
    (Str.contains "date",
     fun _ => now <- datetime_now ;;
              speak ("Today is " ++ strftime env now "%A, %B %d, %Y"));
    (fun t => (Str.startswith t "search for" || Str.startswith t "google"
               || Str.contains "search" t)%bool,
     handle_search env);
    (Str.contains_any ["hello"; "hi"; "hey"],
     fun _ => speak "Hello! How can I help you?");
    (Str.contains "thank", fun _ => speak "You are welcome!") ].

(** ** Vocabulary of the further properties *)

(** The world [w] when the clock shows [t]. *)
Definition with_clock (w : world) (t : Z) : world :=
  mkWorld t (reminders w) (microphone w) (stdin w)
    (weather_api w) (news_api w) (trace w).

(** The world [w] with the keystrokes [q] still to come. *)
Definition with_stdin (w : world) (q : list keyboard) : world :=
  mkWorld (clock w) (reminders w) (microphone w) q
    (weather_api w) (news_api w) (trace w).

(** The utterance of the worker for a due reminder. *)
Definition announce (r : Z * string) : event :=
  EvSpeak ("Reminder: " ++ snd r).

(** [m] leaves the clock and the pending reminders as they are. *)
Definition steady {A} (m : M A) : Prop :=
  forall w,
    clock (snd (m w)) = clock w /\ reminders (snd (m w)) = reminders w.

(** [m] leaves the clock as it is, and either leaves the pending reminders
    too or appends one reminder to them, due at a datetime that is not
    before the clock. *)
Definition schedules_at_most_one {A} (m : M A) : Prop :=
  forall w,
    clock (snd (m w)) = clock w
    /\ (reminders (snd (m w)) = reminders w
        \/ exists when message,
             reminders (snd (m w)) = (reminders w ++ [(when, message)])%list
             /\ clock w <= when <= MAXDATETIME).

(** A call of [requests.get]: the request to the weather service of line
    125 or to the news service of line 143.  These are the only requests
    the program's own code sends.  What the speech recogniser does on the
    network inside [listen] (line 84) is not a call of [requests.get] and
    is not meant here: a call of [listen] shows in the trace as
    [EvListen]. *)
Definition is_requests_get (e : event) : bool :=
  match e with
  | EvGet _ _ => true
  | _ => false
  end.

Definition is_browser (e : event) : bool :=
  match e with
  | EvBrowser _ => true
  | _ => false
  end.

Definition not_requests_get (e : event) : Prop := is_requests_get e = false.

Definition not_browser (e : event) : Prop := is_browser e = false.

(** What is said and paused for one headline. *)
Definition read_out (h : string) : list event := [EvSpeak h; EvSleep 500].

(** The world [w] with the sounds [q] still to come. *)
Definition with_microphone (w : world) (q : list audio) : world :=
  mkWorld (clock w) (reminders w) q (stdin w)
    (weather_api w) (news_api w) (trace w).

(** Nothing is said within the timeout of the next listen. *)
Definition silent (q : list audio) : bool :=
  match q with
  | [] => true
  | WaitTimeout :: _ => true
  | _ => false
  end.

(** The text heard wakes the assistant (line 277). *)
Definition wakes (heard : string) : bool :=
  (Str.truthy heard && Str.contains_any WAKE_WORDS heard)%bool.

(** * Properties *)

(** ** Sanity checks of the string and pattern embedding *)

Example lower_ex :
  Str.lower "  Remind ME in 5 Minutes " = "  remind me in 5 minutes ".
Proof. reflexivity. Qed.

Example strip_ex : Str.strip "  weather in  " = "weather in".
Proof. reflexivity. Qed.

Example split_ex :
  Str.split " what's  the weather in paris "
  = ["what's"; "the"; "weather"; "in"; "paris"].
Proof. reflexivity. Qed.

Example replace_ex :
  Str.replace "research for search for cats" "search for" EmptyString
  = "re  cats".
Proof. reflexivity. Qed.

Example replace_no_overlap : Str.replace "aaa" "aa" "b" = "ba".
Proof. reflexivity. Qed.

Example of_int_ex :
  (Str.of_int 120, Str.of_int 0, Str.of_int (-7)) = ("120", "0", "-7").
Proof. reflexivity. Qed.

Example search_oven :
  Re.search reminder_pattern "remind me in 10 minutes to check the oven"
  = Some [(3%nat, "check the oven"); (2%nat, "minutes"); (1%nat, "10")].
Proof. reflexivity. Qed.

Example search_leftmost :
  Re.search reminder_pattern
    "remind me in a bit, remind me in 3 hours walk"
  = Some [(3%nat, "walk"); (2%nat, "hours"); (1%nat, "3")].
Proof. reflexivity. Qed.

(** The message group stops at a newline, the only way for it to be empty
    in a stripped text. *)
Example search_empty_message :
  Re.search reminder_pattern
    ("remind me in 2 hours " ++ String (ascii_of_N 10) "later")
  = Some [(3%nat, EmptyString); (2%nat, "hours"); (1%nat, "2")].
Proof. reflexivity. Qed.

(** ** [replace] against its description *)

Lemma replace_from_skip (old new s : string) (k : nat) :
  Str.replace_from old new s k = Str.replace_from old new (Re.drop k s) O.
Proof.
  revert k. induction s as [|c s IH]; intros k.
  - now destruct k.
  - destruct k as [|k]; [reflexivity|]. cbn [Str.replace_from Re.drop].
    apply IH.
Qed.

(** [replace] as Python documents it: at an occurrence of [old] the
    replacement is put and the search goes on behind the occurrence;
    elsewhere the character is kept. *)
Lemma replace_unfold (old new : string) (c : ascii) (s : string) :
  Str.truthy old = true ->
  Str.replace (String c s) old new
  = if Str.startswith (String c s) old
    then new ++ Str.replace (Re.drop (String.length old) (String c s)) old new
    else String c (Str.replace s old new).
Proof.
  intros Hold. unfold Str.replace. cbn [Str.replace_from].
  destruct (Str.startswith (String c s) old); [|reflexivity].
  rewrite replace_from_skip.
  destruct old as [|a old]; [discriminate|]. reflexivity.
Qed.

(** ** The matcher against the declarative reading *)

Lemma startswith_split (s p : string) :
  Str.startswith s p = true -> s = p ++ Re.drop (String.length p) s.
Proof.
  revert s. induction p as [|a p IH]; intros s H; [reflexivity|].
  destruct s as [|b s]; [discriminate|]. cbn in H.
  apply andb_prop in H. destruct H as [Hab Hp].
  apply Ascii.eqb_eq in Hab. subst b. cbn. f_equal. apply IH, Hp.
Qed.

Lemma star_sound k s g c m :
  Re.star k s g c = Some m ->
  exists cs s',
    s = cs ++ s' /\ Str.all (Re.cmatch k) cs = true /\ c s' g = Some m.
Proof.
  revert m. induction s as [|a s IH]; intros m H; cbn in H.
  - exists EmptyString, EmptyString. auto.
  - destruct (Re.cmatch k a) eqn:Ha.
    + destruct (Re.star k s g c) as [m'|] eqn:E.
      * injection H as <-.
        destruct (IH m' eq_refl) as (cs & s' & -> & Hcs & Hc).
        exists (String a cs), s'. cbn. rewrite Ha, Hcs. auto.
      * exists EmptyString, (String a s). auto.
    + exists EmptyString, (String a s). auto.
Qed.

Lemma run_sound r : forall s g c m,
  Re.run r s g c = Some m ->
  exists s' g', matches r s s' g g' /\ c s' g' = Some m.
Proof.
  induction r as [p|r1 IH1 r2 IH2|r1 IH1 r2 IH2|r IH|k|k|n r IH];
    intros s g c m H; cbn in H.
  - destruct (Str.startswith s p) eqn:E; [|discriminate].
    exists (Re.drop (String.length p) s), g. split; [|exact H].
    rewrite (startswith_split _ _ E) at 1. constructor.
  - apply IH1 in H. destruct H as (s1 & g1 & H1 & H).
    apply IH2 in H. destruct H as (s' & g' & H2 & H).
    exists s', g'. split; [econstructor; eauto|exact H].
  - destruct (Re.run r1 s g c) as [m'|] eqn:E.
    + injection H as <-. apply IH1 in E. destruct E as (s' & g' & H1 & H).
      exists s', g'. split; [apply M_AltL; exact H1|exact H].
    + apply IH2 in H. destruct H as (s' & g' & H2 & H).
      exists s', g'. split; [apply M_AltR; exact H2|exact H].
  - destruct (Re.run r s g c) as [m'|] eqn:E.
    + injection H as <-. apply IH in E. destruct E as (s' & g' & H1 & H).
      exists s', g'. split; [apply M_OptSome; exact H1|exact H].
    + exists s, g. split; [apply M_OptNone|exact H].
  - destruct s as [|a s]; [discriminate|].
    destruct (Re.cmatch k a) eqn:Ha; [|discriminate].
    apply star_sound in H. destruct H as (cs & s' & -> & Hcs & H).
    exists s', g. split; [|exact H].
    apply (M_Plus k (String a cs)); [reflexivity|]. cbn. now rewrite Ha.
  - apply star_sound in H. destruct H as (cs & s' & -> & Hcs & H).
    exists s', g. split; [|exact H]. now apply M_Star.
  - apply IH in H. destruct H as (s' & g' & H1 & H).
    exists s', ((n, Re.taken s s') :: g'). split; [|exact H].
    now constructor.
Qed.

Lemma first_next (s : string) : s = first_line s ++ next_lines s.
Proof.
  induction s as [|c s IH]; [reflexivity|]. cbn [first_line next_lines].
  destruct (Re.cmatch Re.Cany c); [|reflexivity]. cbn. now f_equal.
Qed.

Lemma length_append (a b : string) :
  String.length (a ++ b) = (String.length a + String.length b)%nat.
Proof. induction a; cbn; [reflexivity|now f_equal]. Qed.

Lemma take_append (a b : string) : Re.take (String.length a) (a ++ b) = a.
Proof. induction a; cbn; [now destruct b|now f_equal]. Qed.

Lemma taken_append (a b : string) : Re.taken (a ++ b) b = a.
Proof.
  unfold Re.taken. rewrite length_append.
  replace (String.length a + String.length b - String.length b)%nat
    with (String.length a) by lia.
  apply take_append.
Qed.

Lemma star_greedy (s : string) (g : Re.groups) (c : Re.cont) :
  (forall s' g', c s' g' <> None) ->
  Re.star Re.Cany s g c = c (next_lines s) g.
Proof.
  intros Hc. induction s as [|a s IH]; [reflexivity|].
  cbn [Re.star next_lines].
  destruct (Re.cmatch Re.Cany a); [|reflexivity].
  rewrite IH. destruct (c (next_lines s) g) eqn:E; [reflexivity|].
  now apply Hc in E.
Qed.

Lemma run_message (s : string) (g : Re.groups) :
  Re.run (Re.Seq (Re.Opt (Re.Lit "to ")) (Re.Group 3 (Re.Star Re.Cany))) s g
    (fun _ g' => Some g')
  = Some ((3%nat, first_line (after_to s)) :: g).
Proof.
  assert (H : forall s0,
             Re.run (Re.Group 3 (Re.Star Re.Cany)) s0 g (fun _ g' => Some g')
             = Some ((3%nat, first_line s0) :: g)).
  { intros s0. cbn. rewrite star_greedy by discriminate.
    rewrite (first_next s0) at 1. now rewrite taken_append. }
  change (Re.run (Re.Seq (Re.Opt (Re.Lit "to ")) (Re.Group 3 (Re.Star Re.Cany)))
            s g (fun _ g' => Some g'))
    with (match (if Str.startswith s "to "
                 then Re.run (Re.Group 3 (Re.Star Re.Cany)) (Re.drop 3 s) g
                        (fun _ g' => Some g')
                 else None)
          with
          | Some m => Some m
          | None => Re.run (Re.Group 3 (Re.Star Re.Cany)) s g
                      (fun _ g' => Some g')
          end).
  unfold after_to. rewrite !H.
  destruct (Str.startswith s "to "); reflexivity.
Qed.

Lemma run_seq r1 r2 s g c :
  Re.run (Re.Seq r1 r2) s g c = Re.run r1 s g (fun s' g' => Re.run r2 s' g' c).
Proof. reflexivity. Qed.

Lemma matches_lit p s s' g g' :
  matches (Re.Lit p) s s' g g' -> s = p ++ s' /\ g' = g.
Proof. inversion 1; auto. Qed.

Lemma matches_alt r1 r2 s s' g g' :
  matches (Re.Alt r1 r2) s s' g g' ->
  matches r1 s s' g g' \/ matches r2 s s' g g'.
Proof. inversion 1; auto. Qed.

Lemma matches_plus k s s' g g' :
  matches (Re.Plus k) s s' g g' ->
  exists cs, s = cs ++ s' /\ Str.truthy cs = true
             /\ Str.all (Re.cmatch k) cs = true /\ g' = g.
Proof. inversion 1; eauto. Qed.

Lemma matches_group n r s s' g g' :
  matches (Re.Group n r) s s' g g' ->
  exists g1, matches r s s' g g1 /\ g' = (n, Re.taken s s') :: g1.
Proof. inversion 1; eauto. Qed.

(** What a match of the pattern at the start of [s] says about [s]. *)
Lemma pattern_here_sound (s : string) (m : Re.groups) :
  Re.run reminder_pattern s [] (fun _ g => Some g) = Some m ->
  exists ds u rest,
    s = "remind me in " ++ ds ++ " " ++ u ++ " " ++ rest
    /\ Str.truthy ds = true
    /\ Str.all Str.isdecimal ds = true
    /\ In u UNITS
    /\ m = [(3%nat, message_of rest); (2%nat, u); (1%nat, ds)].
Proof.
  unfold reminder_pattern. intros H.
  rewrite run_seq in H. apply run_sound in H.
  destruct H as (s1 & g1 & M & H).
  apply matches_lit in M. destruct M as [-> ->].
  rewrite run_seq in H. apply run_sound in H.
  destruct H as (s2 & g2 & M & H).
  apply matches_group in M. destruct M as (g & M & ->).
  apply matches_plus in M. destruct M as (ds & -> & Hds1 & Hds2 & ->).
  rewrite taken_append in H.
  rewrite run_seq in H. apply run_sound in H.
  destruct H as (s3 & g3 & M & H).
  apply matches_lit in M. destruct M as [-> ->].
  rewrite run_seq in H. apply run_sound in H.
  destruct H as (s4 & g4 & M & H).
  apply matches_group in M. destruct M as (g & M & ->).
  rewrite run_seq in H. apply run_sound in H.
  destruct H as (s5 & g5 & M5 & H).
  apply matches_lit in M5. destruct M5 as [-> ->].
  rewrite run_message in H. injection H as <-.
  assert (Hu : exists u,
             In u UNITS /\ s3 = u ++ " " ++ s5 /\ g = [(1%nat, ds)]).
  { apply matches_alt in M. destruct M as [M|M].
    { apply matches_lit in M. destruct M as [-> ->].
      exists "minute". cbn. auto. }
    apply matches_alt in M. destruct M as [M|M].
    { apply matches_lit in M. destruct M as [-> ->].
      exists "minutes". cbn. auto. }
    apply matches_alt in M. destruct M as [M|M].
    { apply matches_lit in M. destruct M as [-> ->].
      exists "hour". cbn. auto. }
    apply matches_lit in M. destruct M as [-> ->].
    exists "hours". cbn. auto 6. }
  destruct Hu as (u & Hu & -> & ->).
  exists ds, u, s5. repeat split; try assumption.
  rewrite taken_append. reflexivity.
Qed.

Lemma search_sound (r : Re.regex) (s : string) (m : Re.groups) :
  Re.search r s = Some m ->
  exists pre s0,
    s = pre ++ s0 /\ Re.run r s0 [] (fun _ g => Some g) = Some m.
Proof.
  induction s as [|a s IH]; cbn [Re.search]; intros H.
  - destruct (Re.run r EmptyString [] (fun _ g => Some g)) eqn:E;
      [|discriminate].
    exists EmptyString, EmptyString. rewrite E. auto.
  - destruct (Re.run r (String a s) [] (fun _ g => Some g)) eqn:E.
    + exists EmptyString, (String a s). rewrite E. auto.
    + destruct (IH H) as (pre & s0 & -> & Hrun).
      exists (String a pre), s0. auto.
Qed.

(** Every match of the reminder pattern found by [search]. *)
Lemma reminder_pattern_sound (t : string) (m : Re.groups) :
  Re.search reminder_pattern t = Some m ->
  exists pre ds u rest,
    t = pre ++ "remind me in " ++ ds ++ " " ++ u ++ " " ++ rest
    /\ Str.truthy ds = true
    /\ Str.all Str.isdecimal ds = true
    /\ In u UNITS
    /\ m = [(3%nat, message_of rest); (2%nat, u); (1%nat, ds)].
Proof.
  intros H. apply search_sound in H. destruct H as (pre & s0 & -> & H).
  apply pattern_here_sound in H.
  destruct H as (ds & u & rest & -> & H). exists pre, ds, u, rest. auto.
Qed.

Lemma truthy_append (a b : string) :
  Str.truthy b = true -> Str.truthy (a ++ b) = true.
Proof. destruct a; [auto|reflexivity]. Qed.

Lemma ends_append (a b : string) :
  Str.truthy b = true -> ends_in_space (a ++ b) = ends_in_space b.
Proof.
  intros Hb. induction a as [|c a IH]; [reflexivity|].
  cbn [append ends_in_space]. now rewrite truthy_append.
Qed.

Lemma rstrip_ends (s : string) : ends_in_space (Str.rstrip s) = false.
Proof.
  induction s as [|c s IH]; [reflexivity|]. cbn [Str.rstrip].
  destruct (Str.isspace c) eqn:Hc, (Str.truthy (Str.rstrip s)) eqn:Hr;
    cbn [andb negb ends_in_space]; rewrite ?Hr; auto.
Qed.

Lemma strip_ends (s : string) : ends_in_space (Str.strip s) = false.
Proof. apply rstrip_ends. Qed.

Lemma all_append (p : ascii -> bool) (a b : string) :
  Str.all p (a ++ b) = (Str.all p a && Str.all p b)%bool.
Proof.
  induction a as [|c a IH]; [reflexivity|]. cbn. rewrite IH.
  now rewrite andb_assoc.
Qed.

Lemma all_drop (p : ascii -> bool) (n : nat) (s : string) :
  Str.all p s = true -> Str.all p (Re.drop n s) = true.
Proof.
  revert s. induction n as [|n IH]; intros s H; [now destruct s|].
  destruct s as [|c s]; [reflexivity|]. cbn in *.
  apply andb_prop in H. apply IH. tauto.
Qed.

Lemma first_line_all (s : string) :
  Str.all (Re.cmatch Re.Cany) s = true -> first_line s = s.
Proof.
  induction s as [|c s IH]; [reflexivity|]. cbn [Str.all first_line].
  intros H. apply andb_prop in H. destruct H as [Hc Hs].
  rewrite Hc. f_equal. auto.
Qed.

(** In a text without a newline that does not end in a space, as every
    stripped single line is, the message group of a match is never empty:
    the fallback to "your task" of line 170 is not taken. *)
Lemma message_group_not_empty (t : string) (m : Re.groups) :
  Str.all (Re.cmatch Re.Cany) t = true ->
  ends_in_space t = false ->
  Re.search reminder_pattern t = Some m ->
  truthy_opt (Re.group m 3) = true.
Proof.
  intros Hline Hend Hm.
  apply reminder_pattern_sound in Hm.
  destruct Hm as (pre & ds & u & rest & -> & _ & _ & _ & ->).
  cbn [Re.group Nat.eqb truthy_opt]. unfold message_of.
  rewrite !all_append in Hline.
  repeat (apply andb_prop in Hline; destruct Hline as [? Hline]).
  rewrite !ends_append in Hend
    by (repeat (reflexivity || apply truthy_append)).
  rewrite first_line_all.
  2:{ unfold after_to. destruct (Str.startswith rest "to ");
      [apply all_drop|]; assumption. }
  unfold after_to. destruct (Str.startswith rest "to ") eqn:Hto.
  - apply startswith_split in Hto. cbn [String.length] in Hto.
    destruct (Re.drop 3 rest) as [|c r]; [|reflexivity].
    rewrite Hto in Hend. discriminate Hend.
  - destruct rest; [discriminate Hend|reflexivity].
Qed.

Lemma star_all (k : Re.cclass) (cs s' : string) (g : Re.groups) (c : Re.cont)
  (m : Re.groups) :
  Str.all (Re.cmatch k) cs = true ->
  c s' g = Some m ->
  Re.star k s' g c = Some m ->
  Re.star k (cs ++ s') g c = Some m.
Proof.
  intros Hcs Hc Hs. induction cs as [|a cs IH]; [exact Hs|].
  cbn in Hcs. apply andb_prop in Hcs. destruct Hcs as [Ha Hcs].
  cbn [append Re.star]. rewrite Ha, (IH Hcs). reflexivity.
Qed.

Lemma search_here (r : Re.regex) (s : string) (m : Re.groups) :
  Re.run r s [] (fun _ g => Some g) = Some m -> Re.search r s = Some m.
Proof. intros H. destruct s; cbn [Re.search]; now rewrite H. Qed.

Lemma drop_append (p s : string) : Re.drop (String.length p) (p ++ s) = s.
Proof. induction p; [now destruct s|assumption]. Qed.

Lemma startswith_append (p s : string) : Str.startswith (p ++ s) p = true.
Proof.
  induction p as [|a p IH]; [now destruct s|]. cbn.
  now rewrite Ascii.eqb_refl, IH.
Qed.

Lemma run_lit_here (p s' : string) (g : Re.groups) (c : Re.cont) :
  Re.run (Re.Lit p) (p ++ s') g c = c s' g.
Proof. cbn [Re.run]. now rewrite startswith_append, drop_append. Qed.

Lemma run_group (n : nat) (r : Re.regex) (s : string) (g : Re.groups)
  (c : Re.cont) :
  Re.run (Re.Group n r) s g c
  = Re.run r s g (fun s' g' => c s' ((n, Re.taken s s') :: g')).
Proof. reflexivity. Qed.

(** The unit and the spaces around it, whatever pattern follows. *)
Lemma run_unit (tail : Re.regex) (u rest : string) (g : Re.groups)
  (c : Re.cont) :
  In u UNITS ->
  Re.run (Re.Seq (Re.Lit " ") (Re.Seq (Re.Group 2 UNIT)
                                 (Re.Seq (Re.Lit " ") tail)))
    (" " ++ u ++ " " ++ rest) g c
  = Re.run tail rest ((2%nat, u) :: g) c.
Proof.
  intros Hu. rewrite run_seq, run_lit_here, run_seq, run_group.
  destruct Hu as [<-|[<-|[<-|[<-|[]]]]].
  - change (Re.run UNIT ("minute" ++ " " ++ rest) g _)
      with (match Re.run tail rest
                    ((2%nat, Re.taken ("minute" ++ " " ++ rest) (" " ++ rest)) :: g) c
            with Some m => Some m | None => None end).
    rewrite taken_append. now destruct (Re.run tail rest _ c).
  - change (Re.run UNIT ("minutes" ++ " " ++ rest) g _)
      with (match Re.run tail rest
                    ((2%nat, Re.taken ("minutes" ++ " " ++ rest) (" " ++ rest)) :: g) c
            with Some m => Some m | None => None end).
    rewrite taken_append. now destruct (Re.run tail rest _ c).
  - change (Re.run UNIT ("hour" ++ " " ++ rest) g _)
      with (match Re.run tail rest
                    ((2%nat, Re.taken ("hour" ++ " " ++ rest) (" " ++ rest)) :: g) c
            with Some m => Some m | None => None end).
    rewrite taken_append. now destruct (Re.run tail rest _ c).
  - change (Re.run UNIT ("hours" ++ " " ++ rest) g _)
      with (Re.run tail rest
              ((2%nat, Re.taken ("hours" ++ " " ++ rest) (" " ++ rest)) :: g) c).
    now rewrite taken_append.
Qed.

(** The match of a text that begins with a well-formed reminder command. *)
Lemma reminder_pattern_complete (ds u rest : string) :
  Str.truthy ds = true ->
  Str.all Str.isdecimal ds = true ->
  In u UNITS ->
  Re.search reminder_pattern
    ("remind me in " ++ ds ++ " " ++ u ++ " " ++ rest)
  = Some [(3%nat, message_of rest); (2%nat, u); (1%nat, ds)].
Proof.
  intros Hds1 Hds2 Hu. apply search_here.
  destruct ds as [|d ds]; [discriminate|].
  cbn [Str.all] in Hds2. apply andb_prop in Hds2. destruct Hds2 as [Hd Hds].
  unfold reminder_pattern. fold UNIT.
  rewrite run_seq, run_lit_here, run_seq, run_group.
  set (Y := " " ++ u ++ " " ++ rest).
  change (String d ds ++ Y) with (String d (ds ++ Y)) at 1.
  cbn [Re.run].
  change (Re.cmatch Re.Cdigit d) with (Str.isdecimal d). rewrite Hd.
  assert (Hc : Re.run
                 (Re.Seq (Re.Lit " ")
                    (Re.Seq (Re.Group 2 UNIT)
                       (Re.Seq (Re.Lit " ")
                          (Re.Seq (Re.Opt (Re.Lit "to "))
                             (Re.Group 3 (Re.Star Re.Cany))))))
                 Y [(1%nat, Re.taken (String d ds ++ Y) Y)]
                 (fun _ g => Some g)
               = Some [(3%nat, message_of rest); (2%nat, u);
                       (1%nat, String d ds)]).
  { rewrite taken_append. unfold Y. rewrite run_unit by exact Hu.
    apply run_message. }
  apply star_all; [exact Hds|exact Hc|exact Hc].
Qed.

Lemma contains_truthy (p t : string) :
  Str.truthy p = true -> Str.contains p t = true -> Str.truthy t = true.
Proof.
  destruct p; [discriminate|]. destruct t; [discriminate|reflexivity].
Qed.

Lemma contains_here (p s : string) :
  Str.startswith s p = true -> Str.contains p s = true.
Proof. intros H. destruct s; cbn [Str.contains]; now rewrite H. Qed.

Lemma contains_later (p pre s : string) :
  Str.contains p s = true -> Str.contains p (pre ++ s) = true.
Proof.
  intros H. induction pre as [|a pre IH]; [exact H|].
  cbn [append Str.contains]. rewrite IH.
  now destruct (Str.startswith (String a (pre ++ s)) p).
Qed.

Lemma search_later (r : Re.regex) (pre s : string) (m : Re.groups) :
  Re.search r s = Some m -> exists m', Re.search r (pre ++ s) = Some m'.
Proof.
  intros H. induction pre as [|a pre IH]; [now exists m|].
  cbn [append Re.search]. destruct IH as (m' & IH). rewrite IH.
  destruct (Re.run r (String a (pre ++ s)) [] (fun _ g => Some g)) as [m''|];
    eauto.
Qed.

(** The texts in which [re.search] finds the pattern are those with a
    well-formed reminder command somewhere. *)
Lemma reminder_pattern_matches (t : string) :
  Re.search reminder_pattern t <> None <-> duration_shape t.
Proof.
  split.
  - destruct (Re.search reminder_pattern t) as [m|] eqn:E; [|tauto].
    intros _. apply reminder_pattern_sound in E.
    destruct E as (pre & ds & u & rest & H). exists pre, ds, u, rest. tauto.
  - intros (pre & ds & u & rest & -> & Hds1 & Hds2 & Hu).
    destruct (search_later reminder_pattern pre _ _
                (reminder_pattern_complete ds u rest Hds1 Hds2 Hu))
      as (m & ->).
    discriminate.
Qed.

(** A text that is, lowered and stripped, a well-formed reminder command
    from its first character on is handled by one call of
    [set_reminder_in]: the digits (no more of them than the interpreter
    converts) give the minutes, sixty times as many for an hour unit, and
    the message is the rest of the line after an optional "to ", or "your
    task" when that is empty. *)
Lemma well_formed_reminder (env : environment) (text ds u rest : string)
  (w : world) :
  Str.strip (Str.lower text)
  = "remind me in " ++ ds ++ " " ++ u ++ " " ++ rest ->
  Str.truthy ds = true ->
  Str.all Str.isdecimal ds = true ->
  within_cap env ds = true ->
  In u UNITS ->
  handle_command env text w
  = set_reminder_in (minutes_of ds u) (message_or_default rest) w.
Proof.
  intros Ht Hds1 Hds2 Hcap Hu. unfold handle_command. rewrite Ht.
  change (Str.truthy ("remind me in " ++ ds ++ " " ++ u ++ " " ++ rest))
    with true.
  rewrite (contains_here "remind me in") by reflexivity.
  cbn [negb]. unfold handle_reminder_in.
  rewrite (reminder_pattern_complete ds u rest Hds1 Hds2 Hu).
  cbn [Re.group Nat.eqb]. unfold int_. rewrite Hds1, Hds2, Hcap.
  reflexivity.
Qed.

(** Without a match there is the usage hint and nothing else. *)
Lemma hint_when_no_match (env : environment) (text : string) (w : world) :
  Str.contains "remind me in" (Str.strip (Str.lower text)) = true ->
  Re.search reminder_pattern (Str.strip (Str.lower text)) = None ->
  handle_command env text w
  = (Ok tt, extend w [EvSpeak "Please say: remind me in X minutes to do Y."]).
Proof.
  intros Hin Hno. unfold handle_command.
  rewrite (contains_truthy "remind me in" _ eq_refl Hin), Hin.
  unfold handle_reminder_in. rewrite Hno. reflexivity.
Qed.

(** ** Lists of reminders *)

Lemma filter_all {A} (p : A -> bool) (l : list A) :
  Forall (fun x => p x = true) l -> filter p l = l.
Proof.
  induction 1 as [|x l Hx _ IH]; simpl; [reflexivity|].
  now rewrite Hx, IH.
Qed.

Lemma filter_none {A} (p : A -> bool) (l : list A) :
  Forall (fun x => p x = false) l -> filter p l = [].
Proof.
  induction 1 as [|x l Hx _ IH]; simpl; [reflexivity|].
  now rewrite Hx.
Qed.

Lemma not_due_kept (now : Z) (rs : list reminder) :
  Forall (fun r => now < fst r) rs ->
  filter (fun r => now <? fst r) rs = rs
  /\ filter (fun r => fst r <=? now) rs = [].
Proof.
  intros H; split; [apply filter_all | apply filter_none];
    eapply Forall_impl; try exact H; simpl; intros r Hr; lia.
Qed.

(** ** The reminder store *)

Lemma timedelta_minutes_ok (m : Z) (w : world) :
  -999999999 * 86400 * 1000000 <= minutes_us m
    < 1000000000 * 86400 * 1000000 ->
  timedelta_minutes m w = (Ok (minutes_us m), w).
Proof.
  intros [Hlo Hhi]. unfold timedelta_minutes, minutes_us in *.
  destruct (Z.leb_spec (-999999999 * 86400 * 1000000) (m * 60 * 1000000));
    [|lia].
  destruct (Z.ltb_spec (m * 60 * 1000000) (1000000000 * 86400 * 1000000));
    [reflexivity|lia].
Qed.

Lemma datetime_add_ok (t d : Z) (w : world) :
  0 <= t + d <= MAXDATETIME -> datetime_add t d w = (Ok (t + d), w).
Proof.
  intros [Hlo Hhi]. unfold datetime_add, in_datetime_range.
  destruct (Z.leb_spec 0 (t + d)); [|lia].
  destruct (Z.leb_spec (t + d) MAXDATETIME); [reflexivity|lia].
Qed.

(** What [set_reminder_in] does when the fire time is a datetime. *)
Lemma set_reminder_in_ok (m : Z) (msg : string) (w : world) :
  0 <= clock w <= MAXDATETIME ->
  0 <= clock w + minutes_us m <= MAXDATETIME ->
  set_reminder_in m msg w
  = (Ok tt,
     extend (with_reminders w (reminders w ++ [(clock w + minutes_us m, msg)]))
       [EvSetReminderIn m msg;
        EvSpeak ("Okay. I will remind you in " ++ Str.of_int m
                 ++ " minutes about " ++ msg ++ ".")]).
Proof.
  intros Hc Hf. unfold set_reminder_in, bind, emit, datetime_now, get.
  cbn [clock].
  rewrite timedelta_minutes_ok.
  2:{ unfold MAXDATETIME in *. lia. }
  rewrite datetime_add_ok by (cbn [clock]; exact Hf).
  unfold set_reminders, speak, emit, extend, with_reminders. cbn.
  rewrite <- app_assoc. reflexivity.
Qed.

(** C1, as amended: for every positive [m] whose fire time
    [fireAt = now + m minutes] is still a datetime, and every [msg],
    [set_reminder_in] appends [(fireAt, msg)] to the pending reminders;
    when no other pending reminder is due at [now'], a poll with
    [now' < fireAt] returns nothing and leaves the store as it is, a poll
    with [fireAt <= now'] returns exactly [(fireAt, msg)] and removes it,
    and the next poll at the same [now'] returns nothing. *)
Theorem schedule_then_poll (m : Z) (msg : string) (w : world) (now' : Z) :
  0 < m ->
  0 <= clock w ->
  clock w + minutes_us m <= MAXDATETIME ->
  Forall (fun r => now' < fst r) (reminders w) ->
  let fireAt := clock w + minutes_us m in
  exists w1,
    set_reminder_in m msg w = (Ok tt, w1)
    /\ reminders w1 = (reminders w ++ [(fireAt, msg)])%list
    /\ (now' < fireAt ->
        pollAndRemoveDue now' w1 = (Ok [], w1))
    /\ (fireAt <= now' ->
        pollAndRemoveDue now' w1
        = (Ok [(fireAt, msg)], with_reminders w1 (reminders w))
        /\ pollAndRemoveDue now' (with_reminders w1 (reminders w))
           = (Ok [], with_reminders w1 (reminders w))).
Proof.
  intros Hm Hc Hf Hrs fireAt. subst fireAt.
  assert (Hmu : 0 < minutes_us m) by (unfold minutes_us; lia).
  eexists. split.
  { apply set_reminder_in_ok; lia. }
  destruct (not_due_kept now' (reminders w) Hrs) as [Hkeep Hdue].
  split; [reflexivity|].
  unfold pollAndRemoveDue, bind, get, set_reminders, ret, with_reminders,
    extend.
  cbn [reminders clock microphone stdin weather_api news_api trace].
  rewrite !filter_app, Hkeep, Hdue. cbn [filter fst app].
  split.
  - intros Hlt.
    destruct (Z.leb_spec (clock w + minutes_us m) now'); [lia|].
    destruct (Z.ltb_spec now' (clock w + minutes_us m)); [|lia].
    reflexivity.
  - intros Hge.
    destruct (Z.leb_spec (clock w + minutes_us m) now'); [|lia].
    destruct (Z.ltb_spec now' (clock w + minutes_us m)); [lia|].
    rewrite app_nil_r. split; reflexivity.
Qed.

Lemma schedule_then_poll_witness :
  exists w1,
    set_reminder_in 5 "tea" quiet = (Ok tt, w1)
    /\ reminders w1 = [(clock quiet + minutes_us 5, "tea")]
    /\ pollAndRemoveDue (clock quiet + minutes_us 5 - 1000000) w1
       = (Ok [], w1).
Proof.
  destruct (schedule_then_poll 5 "tea" quiet
              (clock quiet + minutes_us 5 - 1000000))
    as (w1 & Hset & Hpending & Hearly & _).
  - lia.
  - vm_compute. discriminate.
  - vm_compute. discriminate.
  - constructor.
  - exists w1. split; [exact Hset|]. split; [exact Hpending|].
    apply Hearly. lia.
Defined.

(** C1 as stated fails for a large [m]: ten thousand million minutes from
    day 739000 lie beyond year 9999, [set_reminder_in] raises
    [OverflowError] after the call was made, nothing is pending, and the
    poll at [fireAt] returns nothing. *)
Lemma schedule_overflow :
  0 < 10000000000
  /\ set_reminder_in 10000000000 "tea" quiet
     = (Raise OverflowError, extend quiet [EvSetReminderIn 10000000000 "tea"])
  /\ pollAndRemoveDue (clock quiet + minutes_us 10000000000)
       (extend quiet [EvSetReminderIn 10000000000 "tea"])
     = (Ok [], extend quiet [EvSetReminderIn 10000000000 "tea"]).
Proof.
  split; [lia|]. split; vm_compute; reflexivity.
Qed.

(** ** Reminder commands with a duration *)

(** C2, the code at the failing input: "remind me in 2 hours" is answered
    with the usage hint and schedules nothing, in every world.  The
    pattern wants a space after the unit, and [strip] has removed any.
    The hour unit is not at fault: with a message the same command is a
    reminder of 120 minutes.  What cannot happen is the missing message: in
    a stripped text of one line the message group of a match is never
    empty, so the fallback to "your task" of line 170 is never taken. *)
Theorem two_hours_gets_usage_hint (env : environment) (w : world) :
  Re.search reminder_pattern "remind me in 2 hours" = None
  /\ handle_command env "remind me in 2 hours" w
     = (Ok tt, extend w [EvSpeak "Please say: remind me in X minutes to do Y."])
  /\ handle_command env "remind me in 2 hours to nap" w
     = set_reminder_in 120 "nap" w
  /\ (forall text m,
        Str.all (Re.cmatch Re.Cany) (Str.strip (Str.lower text)) = true ->
        Re.search reminder_pattern (Str.strip (Str.lower text)) = Some m ->
        truthy_opt (Re.group m 3) = true).
Proof.
  split; [reflexivity|]. split; [reflexivity|]. split; [reflexivity|].
  intros text m Hline Hm.
  exact (message_group_not_empty _ m Hline (strip_ends _) Hm).
Qed.

(** C3: "remind me in 10 minutes to check the oven" is handled by the call
    [set_reminder_in 10 "check the oven"]; while the clock is ten minutes
    or more before the last datetime, that appends the reminder due in ten
    minutes with this message and speaks the confirmation.  In general,
    for a command in minutes the value of the digits (no more of them
    than the interpreter converts) is passed as it is, and the message is
    what follows the optional "to ". *)
Theorem oven_reminder (env : environment) (w : world) :
  handle_command env "remind me in 10 minutes to check the oven" w
  = set_reminder_in 10 "check the oven" w
  /\ (0 <= clock w ->
      clock w + minutes_us 10 <= MAXDATETIME ->
      handle_command env "remind me in 10 minutes to check the oven" w
      = (Ok tt,
         extend
           (with_reminders w
              (reminders w ++ [(clock w + minutes_us 10, "check the oven")]))
           [EvSetReminderIn 10 "check the oven";
            EvSpeak "Okay. I will remind you in 10 minutes about check the oven."]))
  /\ (forall text ds u rest,
        Str.strip (Str.lower text)
        = "remind me in " ++ ds ++ " " ++ u ++ " " ++ rest ->
        Str.truthy ds = true ->
        Str.all Str.isdecimal ds = true ->
        within_cap env ds = true ->
        u = "minute" \/ u = "minutes" ->
        handle_command env text w
        = set_reminder_in (Str.digits_value ds 0) (message_or_default rest) w).
Proof.
  split; [reflexivity|]. split.
  - intros Hc Hf.
    change (handle_command env "remind me in 10 minutes to check the oven" w)
      with (set_reminder_in 10 "check the oven" w).
    rewrite set_reminder_in_ok by (unfold minutes_us in *; lia).
    reflexivity.
  - intros text ds u rest Ht Hds1 Hds2 Hcap Hu.
    rewrite (well_formed_reminder env text ds u rest w Ht Hds1 Hds2 Hcap).
    + destruct Hu as [->| ->]; reflexivity.
    + destruct Hu as [->| ->]; cbn; auto.
Qed.

Lemma oven_reminder_witness :
  handle_command keyed "remind me in 10 minutes to check the oven" quiet
  = (Ok tt,
     extend
       (with_reminders quiet [(clock quiet + minutes_us 10, "check the oven")])
       [EvSetReminderIn 10 "check the oven";
        EvSpeak "Okay. I will remind you in 10 minutes about check the oven."])
  /\ handle_command keyed "  Remind me in 45 MINUTES call Mom " quiet
     = set_reminder_in 45 "call mom" quiet.
Proof.
  destruct (oven_reminder keyed quiet) as (_ & Heffect & Hrule).
  split.
  - apply Heffect; vm_compute; discriminate.
  - apply (Hrule "  Remind me in 45 MINUTES call Mom " "45" "minutes"
             "call mom"); auto.
Defined.

(** ** Reasoning about what a computation adds to the trace *)

Section Adds.

Variable P : event -> Prop.

Lemma adds_ret {A} (Q : A -> Prop) (a : A) : Q a -> adds P Q (ret a).
Proof.
  intros Ha w. exists []. cbn. rewrite app_nil_r. auto.
Qed.

Lemma adds_raise {A} (Q : A -> Prop) (e : exn) : adds P Q (raise e).
Proof.
  intros w. exists []. cbn. rewrite app_nil_r. auto.
Qed.

Lemma adds_get {A} (field : world -> A) : adds P anything (get field).
Proof.
  intros w. exists []. cbn. rewrite app_nil_r. unfold anything. auto.
Qed.

Lemma adds_emit (e : event) : P e -> adds P anything (emit e).
Proof.
  intros He w. exists [e]. cbn. unfold anything. auto.
Qed.

Lemma adds_set_reminders rs : adds P anything (set_reminders rs).
Proof.
  intros w. exists []. cbn. rewrite app_nil_r. unfold anything. auto.
Qed.

Lemma adds_set_microphone q : adds P anything (set_microphone q).
Proof.
  intros w. exists []. cbn. rewrite app_nil_r. unfold anything. auto.
Qed.

Lemma adds_set_stdin q : adds P anything (set_stdin q).
Proof.
  intros w. exists []. cbn. rewrite app_nil_r. unfold anything. auto.
Qed.

Lemma adds_bind {A B} (Q : A -> Prop) (R : B -> Prop) (m : M A)
  (f : A -> M B) :
  adds P Q m -> (forall a, Q a -> adds P R (f a)) -> adds P R (bind m f).
Proof.
  intros Hm Hf w. unfold bind.
  destruct (Hm w) as (evs & Ht & Hevs & Hq).
  destruct (m w) as [[a|e] w1]; cbn in *.
  - destruct (Hf a Hq w1) as (evs' & Ht' & Hevs' & Hr).
    exists (evs ++ evs')%list. rewrite Ht', Ht, app_assoc.
    split; [reflexivity|]. split; [|exact Hr].
    apply Forall_app; auto.
  - exists evs. auto.
Qed.

Lemma adds_try {A} (Q : A -> Prop) (body handler : M A)
  (caught : exn -> bool) :
  adds P Q body -> adds P Q handler ->
  adds P Q (try_except body caught handler).
Proof.
  intros Hb Hh w. unfold try_except.
  destruct (Hb w) as (evs & Ht & Hevs & Hq).
  destruct (body w) as [[a|e] w1]; cbn in *.
  - exists evs. auto.
  - destruct (caught e); cbn.
    + destruct (Hh w1) as (evs' & Ht' & Hevs' & Hr).
      exists (evs ++ evs')%list. rewrite Ht', Ht, app_assoc.
      split; [reflexivity|]. split; [|exact Hr].
      apply Forall_app; auto.
    + exists evs. auto.
Qed.

Lemma adds_weaken {A} (Q Q' : A -> Prop) (m : M A) :
  adds P Q m -> (forall a, Q a -> Q' a) -> adds P Q' m.
Proof.
  intros Hm HQ w. destruct (Hm w) as (evs & Ht & Hevs & Hq).
  exists evs. split; [exact Ht|]. split; [exact Hevs|].
  destruct (fst (m w)); auto.
Qed.

Lemma adds_for_each {A} (l : list A) (body : A -> M unit) :
  (forall x, adds P anything (body x)) ->
  adds P anything (for_each l body).
Proof.
  intros Hb. induction l as [|x l IH]; cbn [for_each].
  - apply adds_ret. exact I.
  - eapply adds_bind; [apply Hb|]. intros _ _. exact IH.
Qed.

End Adds.

(** A step that needs nothing from the value before it. *)
Ltac adds_next :=
  eapply (adds_bind _ anything); [|intros ? _].

Lemma digits_value_nonneg (s : string) (acc : Z) :
  Str.all Str.isdecimal s = true -> 0 <= acc -> 0 <= Str.digits_value s acc.
Proof.
  revert acc. induction s as [|c s IH]; cbn [Str.all Str.digits_value];
    intros acc Hs Hacc; [exact Hacc|].
  apply andb_prop in Hs. destruct Hs as [Hc Hs].
  apply IH; [exact Hs|].
  unfold Str.isdecimal, Str.between in Hc.
  apply andb_prop in Hc. destruct Hc as [Hlo _].
  apply N.leb_le in Hlo. lia.
Qed.

Lemma adds_int_ (P : event -> Prop) (env : environment) (s : string) :
  adds P (fun v => 0 <= v) (int_ env s).
Proof.
  unfold int_.
  destruct (Str.truthy s && Str.all Str.isdecimal s && within_cap env s)%bool
    eqn:E.
  - apply adds_ret. apply andb_prop in E. destruct E as [E _].
    apply andb_prop in E.
    apply digits_value_nonneg; [tauto|lia].
  - apply adds_raise.
Qed.

Lemma adds_speak (P : event -> Prop) (text : string) :
  P (EvSpeak text) -> adds P anything (speak text).
Proof.
  intros H. apply adds_emit. exact H.
Qed.

Lemma adds_listen (P : event -> Prop) (env : environment) (t l : Z) :
  P (EvListen t l) -> adds P anything (listen env t l).
Proof.
  intros H. unfold listen. adds_next; [apply adds_emit; exact H|].
  destruct (negb (mic env)); [apply adds_ret; exact I|].
  eapply (adds_bind _ anything); [apply adds_get|]. intros q _.
  destruct q as [|[text| | |] q]; try apply adds_raise.
  all: adds_next; [apply adds_set_microphone|];
    first [apply adds_ret; exact I | apply adds_raise].
Qed.

Lemma adds_set_reminder_in (minutes : Z) (message : string) :
  0 <= minutes ->
  adds call_is_nonnegative anything (set_reminder_in minutes message).
Proof.
  intros Hm. unfold set_reminder_in.
  adds_next; [apply adds_emit; exact Hm|].
  adds_next; [apply adds_get|].
  adds_next.
  { unfold timedelta_minutes.
    match goal with |- context [if ?b then _ else _] => destruct b end;
      [apply adds_ret; exact I | apply adds_raise]. }
  adds_next.
  { unfold datetime_add.
    match goal with |- context [if ?b then _ else _] => destruct b end;
      [apply adds_ret; exact I | apply adds_raise]. }
  adds_next; [apply adds_get|].
  adds_next; [apply adds_set_reminders|].
  apply adds_speak. exact I.
Qed.

Ltac adds_if :=
  match goal with
  | |- adds _ _ (if ?b then _ else _) => destruct b
  | |- adds _ _ (match ?x with _ => _ end) => destruct x
  | |- adds _ _ (let (_, _) := ?x in _) => destruct x
  end.

(** Closes the goals about straight-line code without calls of
    [set_reminder_in]. *)
Ltac adds_plain :=
  repeat first
    [ apply adds_speak; exact I
    | apply adds_listen; exact I
    | apply adds_emit; exact I
    | apply adds_get
    | apply adds_raise
    | apply (adds_ret _ anything); exact I
    | adds_next
    | adds_if ].

Lemma adds_get_weather env city :
  adds call_is_nonnegative anything (get_weather env city).
Proof. unfold get_weather. adds_plain. Qed.

Lemma adds_get_top_news env count :
  adds call_is_nonnegative anything (get_top_news env count).
Proof. unfold get_top_news. adds_plain. Qed.

Lemma adds_handle_weather env text :
  adds call_is_nonnegative anything (handle_weather env text).
Proof.
  unfold handle_weather. adds_next; [apply adds_get_weather|]. adds_plain.
Qed.

Lemma adds_handle_news env :
  adds call_is_nonnegative anything (handle_news env).
Proof.
  unfold handle_news. adds_next; [apply adds_get_top_news|].
  adds_if. adds_if; [adds_plain|]. adds_next; [adds_plain|].
  adds_if; [|adds_plain]. apply adds_for_each. intros h. adds_plain.
Qed.

Lemma adds_handle_search env text :
  adds call_is_nonnegative anything (handle_search env text).
Proof. unfold handle_search. adds_plain. Qed.

Lemma adds_handle_reminder_in env text :
  adds call_is_nonnegative anything (handle_reminder_in env text).
Proof.
  unfold handle_reminder_in.
  destruct (Re.search reminder_pattern text) as [m|]; [|adds_plain].
  destruct (Re.group m 1) as [g1|]; [|adds_plain].
  destruct (Re.group m 2) as [unit_|]; [|adds_plain].
  eapply adds_bind; [apply adds_int_|]. intros value Hvalue. cbv beta in Hvalue.
  apply adds_set_reminder_in.
  destruct (Str.contains "hour" unit_); lia.
Qed.

Lemma adds_handle_set_reminder env :
  adds call_is_nonnegative anything (handle_set_reminder env).
Proof.
  unfold handle_set_reminder.
  adds_next; [adds_plain|]. adds_next; [adds_plain|].
  apply adds_try; [|adds_plain].
  eapply adds_bind; [apply adds_int_|]. intros mins Hmins. cbv beta in Hmins.
  adds_next; [adds_plain|]. adds_next; [adds_plain|].
  apply adds_set_reminder_in. exact Hmins.
Qed.

Lemma adds_handle_command env text :
  adds call_is_nonnegative anything (handle_command env text).
Proof.
  unfold handle_command.
  repeat first
    [ apply adds_handle_reminder_in
    | apply adds_handle_set_reminder
    | apply adds_handle_weather
    | apply adds_handle_news
    | apply adds_handle_search
    | apply adds_speak; exact I
    | apply adds_get
    | adds_next
    | adds_if ].
Qed.

(** C4, as amended: whatever text is handled in whatever world, the trace
    grows only at its end, and every call of [set_reminder_in] made on the
    way, by the pattern "remind me in ..." or by the dialog, passes a
    number of minutes that is zero or more.  Zero itself is let
    through. *)
Theorem reminder_minutes_nonnegative (env : environment) (text : string)
  (w : world) :
  exists evs,
    trace (snd (handle_command env text w)) = (trace w ++ evs)%list
    /\ forall minutes message,
         In (EvSetReminderIn minutes message) evs -> 0 <= minutes.
Proof.
  destruct (adds_handle_command env text w) as (evs & Ht & Hevs & _).
  exists evs. split; [exact Ht|].
  intros minutes message Hin.
  rewrite Forall_forall in Hevs. exact (Hevs _ Hin).
Qed.

(** C4 as stated fails at zero: "remind me in 0 minutes to stretch" reaches
    [set_reminder_in] with [minutes = 0], and so does the dialog when the
    reply to its first question is "0". *)
Lemma zero_minutes_reach_the_store :
  handle_command keyed "remind me in 0 minutes to stretch" quiet
  = (Ok tt,
     extend (with_reminders quiet [(clock quiet, "stretch")])
       [EvSetReminderIn 0 "stretch";
        EvSpeak "Okay. I will remind you in 0 minutes about stretch."])
  /\ ~ 0 < 0
  /\ In (EvSetReminderIn 0 "milk")
       (trace (snd (handle_command keyed "set reminder"
                      (hearing [Recognized "0"; Recognized "milk"])))).
Proof.
  split; [vm_compute; reflexivity|]. split; [lia|].
  vm_compute. tauto.
Qed.

(** ** The city of a weather command *)

Lemma mem_last (x : string) (pre : list string) :
  Str.mem x (pre ++ [x]) = true.
Proof.
  unfold Str.mem. rewrite existsb_app. cbn.
  rewrite String.eqb_refl. now rewrite orb_true_r.
Qed.

Lemma index_last (x : string) (pre : list string) :
  ~ In x pre -> Str.index x (pre ++ [x]) = Some (List.length pre).
Proof.
  induction pre as [|y pre IH]; cbn; intros Hx.
  - now rewrite String.eqb_refl.
  - destruct (String.eqb_spec y x) as [->|_]; [tauto|].
    rewrite IH by tauto. reflexivity.
Qed.

Lemma skipn_past_last {A} (pre : list A) (x : A) :
  skipn (S (List.length pre)) (pre ++ [x]) = [].
Proof.
  induction pre as [|y pre IH]; [reflexivity|exact IH].
Qed.

(** C5, as amended: when the first token "in" of the text is its last
    token, the extracted city is the empty string. *)
Theorem city_after_trailing_in (text : string) (pre : list string) :
  Str.split text = (pre ++ ["in"])%list ->
  ~ In "in" pre ->
  extract_city text = EmptyString.
Proof.
  intros Hsplit Hpre. unfold extract_city.
  rewrite Hsplit, mem_last, index_last by exact Hpre.
  rewrite skipn_past_last. reflexivity.
Qed.

Lemma city_after_trailing_in_witness :
  extract_city "weather in" = EmptyString.
Proof.
  apply (city_after_trailing_in "weather in" ["weather"]).
  - reflexivity.
  - cbn. intros [H|[]]. discriminate H.
Defined.

(** C5 as stated fails on "weather in paris in": the last token is "in",
    yet the city is what follows the first "in", and that is what the
    weather service is asked for. *)
Lemma city_after_first_in :
  last (Str.split "weather in paris in") EmptyString = "in"
  /\ extract_city "weather in paris in" = "paris in"
  /\ handle_command keyed "weather in paris in" quiet
     = (Ok tt,
        extend quiet
          [EvGet "https://api.openweathermap.org/data/2.5/weather"
             [("q", "paris in"); ("appid", "k1"); ("units", "metric")];
           EvSpeak "Sorry, I couldn't fetch weather. unreachable"]).
Proof.
  repeat split.
Qed.

(** For "weather in" itself the empty city is what the service is asked
    for; the default city of the [except] branch is not used. *)
Example weather_in_asks_for_no_city :
  handle_command keyed "weather in" quiet
  = (Ok tt,
     extend quiet
       [EvGet "https://api.openweathermap.org/data/2.5/weather"
          [("q", EmptyString); ("appid", "k1"); ("units", "metric")];
        EvSpeak "Sorry, I couldn't fetch weather. unreachable"]).
Proof. reflexivity. Qed.

(** ** The two-step reminder dialog *)

Lemma listen_keeps (env : environment) (t l : Z) (w : world) :
  reminders (snd (listen env t l w)) = reminders w
  /\ clock (snd (listen env t l w)) = clock w.
Proof.
  unfold listen, bind, emit, get, set_microphone, ret, raise. cbn.
  destruct (mic env); cbn; [|auto].
  destruct (microphone w) as [|[text| | |] q]; cbn; auto.
Qed.

Lemma run_speak {A} (text : string) (k : M A) (w : world) :
  bind (speak text) (fun _ => k) w = k (extend w [EvSpeak text]).
Proof. reflexivity. Qed.

Lemma run_emit (e : event) (w : world) : emit e w = (Ok tt, extend w [e]).
Proof. reflexivity. Qed.

Lemma extend_extend (w : world) (evs evs' : list event) :
  extend (extend w evs) evs' = extend w (evs ++ evs').
Proof.
  unfold extend. cbn. now rewrite app_assoc.
Qed.

Lemma run_bind {A B} (m : M A) (f : A -> M B) (w w' : world) (a : A) :
  m w = (Ok a, w') -> bind m f w = f a w'.
Proof. intros H. unfold bind. now rewrite H. Qed.

(** C6, as amended.  In the dialog opened by "set reminder" or "remind me
    to": when the listen for the minute count returns empty text, the
    dialog ends with the spoken notice of cancellation and the pending
    reminders are as before; when the count was understood (its digits
    are decimal and no more than the interpreter converts) and the listen
    for the message returns empty text, the message is "your task" and the
    reminder is scheduled (its fire time being a datetime). *)
Theorem dialog_empty_replies (env : environment) (w : world) :
  (forall w2,
     listen env 5 8 (extend w [EvSpeak ASK_WHEN]) = (Ok EmptyString, w2) ->
     handle_set_reminder env w = (Ok tt, extend w2 [EvSpeak CANCELLED])
     /\ reminders (extend w2 [EvSpeak CANCELLED]) = reminders w)
  /\ (forall reply w2 w3,
        listen env 5 8 (extend w [EvSpeak ASK_WHEN]) = (Ok reply, w2) ->
        let digits := Str.filter Str.isdigit reply in
        let mins := Str.digits_value digits 0 in
        Str.truthy digits = true ->
        Str.all Str.isdecimal digits = true ->
        within_cap env digits = true ->
        listen env 5 8 (extend w2 [EvSpeak ASK_WHAT])
        = (Ok EmptyString, w3) ->
        0 <= clock w ->
        clock w + minutes_us mins <= MAXDATETIME ->
        handle_set_reminder env w
        = (Ok tt,
           extend
             (with_reminders w3
                (reminders w ++ [(clock w + minutes_us mins, "your task")]))
             [EvSetReminderIn mins "your task";
              EvSpeak ("Okay. I will remind you in " ++ Str.of_int mins
                       ++ " minutes about your task.")])).
Proof.
  split.
  - intros w2 Hl.
    pose proof (listen_keeps env 5 8 (extend w [EvSpeak ASK_WHEN])) as Hk.
    rewrite Hl in Hk. cbn in Hk.
    unfold handle_set_reminder.
    rewrite run_speak, (run_bind _ _ _ _ _ Hl).
    split; [reflexivity|tauto].
  - intros reply w2 w3 Hl digits mins Hd1 Hd2 Hcap Hl' Hc Hf.
    pose proof (listen_keeps env 5 8 (extend w [EvSpeak ASK_WHEN])) as Hk.
    rewrite Hl in Hk. cbn in Hk. destruct Hk as [Hr2 Hc2].
    pose proof (listen_keeps env 5 8 (extend w2 [EvSpeak ASK_WHAT])) as Hk.
    rewrite Hl' in Hk. cbn in Hk. destruct Hk as [Hr3 Hc3].
    assert (Hmins : 0 <= mins).
    { apply digits_value_nonneg; [exact Hd2|lia]. }
    assert (Hint : int_ env digits w2 = (Ok mins, w2)).
    { unfold int_. now rewrite Hd1, Hd2, Hcap. }
    unfold handle_set_reminder.
    rewrite run_speak, (run_bind _ _ _ _ _ Hl).
    unfold try_except. fold digits.
    rewrite (run_bind _ _ _ _ _ Hint), run_speak, (run_bind _ _ _ _ _ Hl').
    cbn [Str.truthy negb].
    rewrite set_reminder_in_ok.
    + rewrite Hr3, Hr2, Hc3, Hc2. reflexivity.
    + rewrite Hc3, Hc2. unfold minutes_us in *. lia.
    + rewrite Hc3, Hc2. unfold minutes_us in *. lia.
Qed.

Lemma dialog_empty_replies_witness :
  handle_set_reminder keyed (hearing [UnknownValue])
  = (Ok tt,
     extend (hearing []) [EvSpeak ASK_WHEN; EvListen 5 8; EvSpeak CANCELLED])
  /\ handle_set_reminder keyed (hearing [Recognized "5 minutes"; UnknownValue])
     = (Ok tt,
        extend
          (with_reminders (hearing [])
             [(clock quiet + minutes_us 5, "your task")])
          [EvSpeak ASK_WHEN; EvListen 5 8; EvSpeak ASK_WHAT; EvListen 5 8;
           EvSetReminderIn 5 "your task";
           EvSpeak "Okay. I will remind you in 5 minutes about your task."]).
Proof.
  split.
  - apply (proj1 (dialog_empty_replies keyed (hearing [UnknownValue]))
             (extend (hearing []) [EvSpeak ASK_WHEN; EvListen 5 8])).
    reflexivity.
  - apply (proj2 (dialog_empty_replies keyed
                    (hearing [Recognized "5 minutes"; UnknownValue]))
             "5 minutes"
             (extend (hearing [UnknownValue]) [EvSpeak ASK_WHEN; EvListen 5 8])
             (extend (hearing [])
                [EvSpeak ASK_WHEN; EvListen 5 8; EvSpeak ASK_WHAT;
                 EvListen 5 8])).
    + reflexivity.
    + reflexivity.
    + reflexivity.
    + reflexivity.
    + reflexivity.
    + vm_compute. discriminate.
    + vm_compute. discriminate.
Defined.

(** C6 as stated fails for the second listen: the count "5" is heard, the
    listen for the message returns empty text (speech not understood), and
    a reminder with the message "your task" is pending afterwards. *)
Lemma empty_message_still_schedules :
  listen keyed 5 8 (hearing [UnknownValue])
  = (Ok EmptyString, extend (hearing []) [EvListen 5 8])
  /\ handle_command keyed "set reminder"
       (hearing [Recognized "5"; UnknownValue])
     = (Ok tt,
        extend
          (with_reminders (hearing [])
             [(clock quiet + minutes_us 5, "your task")])
          [EvSpeak ASK_WHEN; EvListen 5 8; EvSpeak ASK_WHAT; EvListen 5 8;
           EvSetReminderIn 5 "your task";
           EvSpeak "Okay. I will remind you in 5 minutes about your task."]).
Proof.
  split; vm_compute; reflexivity.
Qed.

(** ** The exit words and the order of the rules *)

Lemma handle_command_first_match (env : environment) (text : string)
  (w : world) :
  handle_command env text w
  = (if negb (Str.truthy (Str.strip (Str.lower text)))
     then speak "I didn't catch that. Please repeat."
     else first_match (rules_in_order env) (speak FALLBACK)
            (Str.strip (Str.lower text))) w.
Proof.
  unfold handle_command, rules_in_order, first_match, FALLBACK.
  repeat match goal with
         | |- context [if ?b then _ else _] => destruct b; try reflexivity
         end.
Qed.

(** C7, as amended.  The exit words are looked for first, by the main loop
    and before [handle_command] is called: a command that contains "quit",
    "exit" or "stop assistant" gets the farewell and ends the loop, whatever
    else it contains, and nothing of [handle_command] runs.  A command
    without them is handed to [handle_command], whose rules are tried in
    the fixed order reminder with duration, reminder dialog, weather, news,
    time, date, search, greeting, thanks, fallback, the first match
    deciding; there is no exit rule among them. *)
Theorem exit_is_checked_first (env : environment) (cmd : string)
  (w : world) :
  Str.truthy cmd = true ->
  (Str.contains_any EXIT_WORDS cmd = true ->
   on_command env cmd w = (Ok true, extend w [EvSpeak "Goodbye!"]))
  /\ (Str.contains_any EXIT_WORDS cmd = false ->
      on_command env cmd w = (handle_command env cmd ;; ret false) w)
  /\ handle_command env cmd w
     = (if negb (Str.truthy (Str.strip (Str.lower cmd)))
        then speak "I didn't catch that. Please repeat."
        else first_match (rules_in_order env) (speak FALLBACK)
               (Str.strip (Str.lower cmd))) w.
Proof.
  intros Hcmd. unfold on_command. rewrite Hcmd.
  split; [|split].
  - intros Hexit. rewrite Hexit. reflexivity.
  - intros Hexit. rewrite Hexit. reflexivity.
  - apply handle_command_first_match.
Qed.

Lemma exit_is_checked_first_witness :
  on_command keyed "hello, please quit" quiet
  = (Ok true, extend quiet [EvSpeak "Goodbye!"])
  /\ on_command keyed "hello there" quiet
     = (Ok false, extend quiet [EvSpeak "Hello! How can I help you?"]).
Proof.
  split.
  - apply (proj1 (exit_is_checked_first keyed "hello, please quit" quiet
                    eq_refl)).
    reflexivity.
  - rewrite (proj1 (proj2 (exit_is_checked_first keyed "hello there" quiet
                             eq_refl)) eq_refl).
    reflexivity.
Defined.

(** C7 as stated fails on its own example: said after the wake word,
    "remind me in 5 minutes to exit the building" ends the loop with the
    farewell and schedules nothing, although [handle_command] alone would
    have scheduled the reminder. *)
Lemma exit_wins_over_reminder :
  on_command keyed "remind me in 5 minutes to exit the building" quiet
  = (Ok true, extend quiet [EvSpeak "Goodbye!"])
  /\ main_loop_turn keyed
       (hearing [Recognized "assistant";
                 Recognized "remind me in 5 minutes to exit the building"])
     = (Ok true,
        extend (hearing [])
          [EvListen 3 3; EvSpeak "Yes?"; EvListen 5 10; EvSpeak "Goodbye!"])
  /\ handle_command keyed "remind me in 5 minutes to exit the building" quiet
     = (Ok tt,
        extend
          (with_reminders quiet
             [(clock quiet + minutes_us 5, "exit the building")])
          [EvSetReminderIn 5 "exit the building";
           EvSpeak "Okay. I will remind you in 5 minutes about exit the building."]).
Proof.
  repeat split; vm_compute; reflexivity.
Qed.

(** ** Malformed reminder commands *)

(** C8: a text that, lowered and stripped, contains "remind me in" but has
    no match of the duration pattern gets the usage hint, and nothing else
    happens: the world is the one before with that utterance added, so the
    pending reminders are unchanged.  Such a text has no well-formed
    reminder command anywhere in it. *)
Theorem malformed_reminder_gets_hint (env : environment) (text : string)
  (w : world) :
  Str.contains "remind me in" (Str.strip (Str.lower text)) = true ->
  Re.search reminder_pattern (Str.strip (Str.lower text)) = None ->
  handle_command env text w
  = (Ok tt, extend w [EvSpeak "Please say: remind me in X minutes to do Y."])
  /\ reminders (snd (handle_command env text w)) = reminders w
  /\ ~ duration_shape (Str.strip (Str.lower text)).
Proof.
  intros Hin Hno.
  rewrite (hint_when_no_match env text w Hin Hno).
  split; [reflexivity|]. split; [reflexivity|].
  intros Hshape. apply reminder_pattern_matches in Hshape. tauto.
Qed.

Lemma malformed_reminder_gets_hint_witness :
  handle_command keyed "remind me in ten minutes to call mom" quiet
  = (Ok tt,
     extend quiet [EvSpeak "Please say: remind me in X minutes to do Y."])
  /\ reminders
       (snd (handle_command keyed "remind me in ten minutes to call mom"
               quiet))
     = reminders quiet
  /\ ~ duration_shape "remind me in ten minutes to call mom".
Proof.
  apply (malformed_reminder_gets_hint keyed
           "remind me in ten minutes to call mom" quiet); reflexivity.
Defined.

(** ** Missing API keys *)



(** ** Web search *)

Lemma listen_trace (env : environment) (t l : Z) (w : world) :
  trace (snd (listen env t l w)) = (trace w ++ [EvListen t l])%list.
Proof.
  unfold listen, bind, emit, get, set_microphone, ret, raise. cbn.
  destruct (mic env); cbn; [|reflexivity].
  destruct (microphone w) as [|[text| | |] q]; reflexivity.
Qed.

(** *** Deleting every occurrence, trimming both ends

    [Str.replace] by nothing against [deletes], [Str.strip] against
    [trimmed]: each relation holds of the function's result and of no
    other string. *)

Lemma lstrip_spaces (s : string) :
  Str.all Str.isspace s = true -> Str.lstrip s = EmptyString.
Proof.
  induction s as [|c s IH]; [reflexivity|]. cbn [Str.all Str.lstrip].
  intros H. apply andb_prop in H. destruct H as [Hc Hs].
  rewrite Hc. exact (IH Hs).
Qed.

(** Behind an occurrence at the start, [replace] goes on with the rest. *)
Lemma replace_occurrence (old s : string) :
  Str.truthy old = true ->
  Str.replace (old ++ s) old EmptyString = Str.replace s old EmptyString.
Proof.
  intros Hold. destruct old as [|a old]; [discriminate|].
  change (String a old ++ s) with (String a (old ++ s)).
  rewrite replace_unfold by reflexivity.
  change (String a (old ++ s)) with (String a old ++ s).
  now rewrite startswith_append, drop_append.
Qed.

Lemma replace_deletes (old s r : string) :
  Str.truthy old = true ->
  deletes old s r -> r = Str.replace s old EmptyString.
Proof.
  intros Hold. induction 1 as [|s r _ IH|c s r Hc _ IH].
  - reflexivity.
  - now rewrite replace_occurrence.
  - rewrite replace_unfold, Hc by exact Hold. now f_equal.
Qed.

Lemma deletes_replace (old : string) :
  Str.truthy old = true ->
  forall s, deletes old s (Str.replace s old EmptyString).
Proof.
  intros Hold.
  assert (H : forall n s, (String.length s < n)%nat ->
                          deletes old s (Str.replace s old EmptyString)).
  { induction n as [|n IH]; intros s Hn; [lia|].
    destruct s as [|c s]; [constructor|].
    rewrite replace_unfold by exact Hold.
    destruct (Str.startswith (String c s) old) eqn:E.
    - pose proof (startswith_split _ _ E) as Hs.
      remember (Re.drop (String.length old) (String c s)) as d eqn:Hd.
      clear Hd. rewrite Hs. cbn [append]. apply D_Occurrence, IH.
      apply (f_equal String.length) in Hs. rewrite length_append in Hs.
      destruct old; [discriminate|]. cbn [String.length] in *. lia.
    - apply D_Keep; [exact E|]. apply IH. cbn [String.length] in Hn. lia. }
  intros s. exact (H (S (String.length s)) s (Nat.lt_succ_diag_r _)).
Qed.

(** [lstrip] takes space characters off the left end, up to the first
    character that is none. *)
Lemma lstrip_split (s : string) :
  exists l,
    s = l ++ Str.lstrip s
    /\ Str.all Str.isspace l = true
    /\ starts_with_space (Str.lstrip s) = false.
Proof.
  induction s as [|c s (l & Hs & Hl & Hq)].
  - exists EmptyString. auto.
  - cbn [Str.lstrip]. destruct (Str.isspace c) eqn:Hc.
    + exists (String c l). cbn. rewrite Hc, Hl, <- Hs. auto.
    + exists EmptyString. cbn. auto.
Qed.

(** [rstrip] takes space characters off the right end. *)
Lemma rstrip_split (s : string) :
  exists r, s = Str.rstrip s ++ r /\ Str.all Str.isspace r = true.
Proof.
  induction s as [|c s (r & Hs & Hr)].
  - exists EmptyString. auto.
  - cbn [Str.rstrip].
    destruct (Str.isspace c) eqn:Hc, (Str.truthy (Str.rstrip s)) eqn:Ht;
      cbn [andb negb].
    + exists r. cbn. now rewrite <- Hs.
    + exists (String c s). split; [reflexivity|]. cbn. rewrite Hc.
      destruct (Str.rstrip s); [|discriminate]. cbn in Hs. now subst s.
    + exists r. cbn. now rewrite <- Hs.
    + exists r. cbn. now rewrite <- Hs.
Qed.

Lemma rstrip_starts (s : string) :
  starts_with_space s = false -> starts_with_space (Str.rstrip s) = false.
Proof.
  destruct s as [|c s]; [reflexivity|]. cbn. intros Hc. now rewrite Hc.
Qed.

Lemma strip_trimmed (s : string) : trimmed s (Str.strip s).
Proof.
  destruct (lstrip_split s) as (l & Hs & Hl & Hq).
  destruct (rstrip_split (Str.lstrip s)) as (r & Hs' & Hr).
  exists l, r. unfold Str.strip. rewrite <- Hs', <- Hs.
  repeat split; auto using rstrip_starts, rstrip_ends.
Qed.

Lemma lstrip_margin (l s : string) :
  Str.all Str.isspace l = true -> Str.lstrip (l ++ s) = Str.lstrip s.
Proof.
  induction l as [|c l IH]; [reflexivity|]. cbn. intros H.
  apply andb_prop in H. destruct H as [Hc Hl]. rewrite Hc. auto.
Qed.

Lemma rstrip_spaces (r : string) :
  Str.all Str.isspace r = true -> Str.rstrip r = EmptyString.
Proof.
  induction r as [|c r IH]; [reflexivity|]. cbn. intros H.
  apply andb_prop in H. destruct H as [Hc Hr]. now rewrite Hc, IH.
Qed.

Lemma rstrip_margin (q r : string) :
  ends_in_space q = false ->
  Str.all Str.isspace r = true ->
  Str.rstrip (q ++ r) = q.
Proof.
  intros Hq Hr. induction q as [|c q IH]; [now apply rstrip_spaces|].
  cbn [append Str.rstrip]. cbn [ends_in_space] in Hq.
  destruct q as [|c' q].
  - cbn [append Str.truthy] in *. rewrite (rstrip_spaces r Hr), Hq.
    reflexivity.
  - cbn [Str.truthy] in Hq. rewrite (IH Hq). cbn [Str.truthy negb].
    now rewrite andb_false_r.
Qed.

Lemma trimmed_strip (s q : string) : trimmed s q -> q = Str.strip s.
Proof.
  intros (l & r & -> & Hl & Hr & Hq1 & Hq2). unfold Str.strip.
  rewrite lstrip_margin by exact Hl.
  destruct q as [|c q].
  - cbn [append]. now rewrite lstrip_spaces.
  - cbn [starts_with_space] in Hq1.
    change (Str.lstrip (String c q ++ r))
      with (if Str.isspace c then Str.lstrip (q ++ r) else String c q ++ r).
    rewrite Hq1. symmetry. now apply rstrip_margin.
Qed.

(** The query of line 240 is the query of the specification, and the only
    one. *)
Lemma query_of_search_query (t q : string) :
  query_of t q <-> q = search_query t.
Proof.
  split.
  - intros (a & b & c & Ha & Hb & Hc & Hq).
    apply replace_deletes in Ha, Hb, Hc; try reflexivity. subst a b c.
    now apply trimmed_strip.
  - intros ->. unfold search_query. do 3 eexists.
    repeat split; [apply deletes_replace; reflexivity ..|apply strip_trimmed].
Qed.

(** C10: a text that no earlier rule accepts and that contains "search"
    anywhere, also inside a word, is handled by the search rule.  The query
    is the one string that results from deleting every occurrence of
    "search for", then every occurrence of "google", then every occurrence
    of "search", and trimming the space characters at both ends of what
    remains: for "research cats" it is "re cats", and for
    "google search for search cats search", where four occurrences go and
    leave blank margins, it is "cats".  A non-empty query is announced and
    handed to the browser.  With an empty query the question is spoken and
    there is one listen; after it either nothing more happens, or the text
    heard is announced and handed to the browser. *)
Theorem search_rule (env : environment) (text : string) (w : world) :
  let t := Str.strip (Str.lower text) in
  earlier_than_search t = false ->
  Str.contains "search" t = true ->
  handle_command env text w = handle_search env t w
  /\ (forall q, query_of t q <-> q = search_query t)
  /\ search_query "research cats" = "re cats"
  /\ search_query "google search for search cats search" = "cats"
  /\ (Str.truthy (search_query t) = true ->
      handle_search env t w
      = (Ok tt,
         extend w
           [EvSpeak ("Searching for " ++ search_query t ++ " on the web.");
            EvBrowser ("https://www.google.com/search?q="
                       ++ requote_uri env (search_query t))]))
  /\ (Str.truthy (search_query t) = false ->
      exists rest,
        trace (snd (handle_search env t w))
        = (trace w ++ [EvSpeak "What should I search for?"; EvListen 5 8]
           ++ rest)%list
        /\ (rest = []
            \/ exists heard,
                 Str.truthy heard = true
                 /\ rest
                    = [EvSpeak ("Searching for " ++ heard ++ " on the web.");
                       EvBrowser ("https://www.google.com/search?q="
                                  ++ requote_uri env heard)])).
Proof.
  intros t Hearlier Hsearch.
  split; [|split; [intros q; apply query_of_search_query
                  |split; [reflexivity|split; [reflexivity|split]]]].
  - unfold earlier_than_search in Hearlier.
    repeat (apply orb_false_elim in Hearlier;
            destruct Hearlier as [Hearlier ?]).
    unfold handle_command. fold t.
    rewrite (contains_truthy "search" _ eq_refl Hsearch).
    repeat match goal with
           | H : _ = false |- _ => rewrite H; clear H
           end.
    rewrite Hsearch, !orb_true_r. reflexivity.
  - intros Hq. unfold handle_search. rewrite Hq. cbn [negb].
    unfold bind at 1. unfold ret at 1. cbv beta iota.
    rewrite Hq, run_speak, run_emit, extend_extend. reflexivity.
  - intros Hq. unfold handle_search. rewrite Hq. cbn [negb].
    unfold bind at 1. unfold bind at 1.
    change (speak "What should I search for?" w)
      with (Ok tt, extend w [EvSpeak "What should I search for?"]).
    cbv iota beta.
    pose proof (listen_trace env 5 8
                  (extend w [EvSpeak "What should I search for?"])) as Ht.
    destruct (listen env 5 8 (extend w [EvSpeak "What should I search for?"]))
      as [[heard|e] w2]; cbn [snd] in *.
    + destruct heard as [|c heard]; cbn [Str.truthy].
      * exists []. cbn [snd ret]. rewrite Ht. cbn [extend trace].
        split; [now rewrite <- app_assoc|left; reflexivity].
      * eexists. split; [|right; exists (String c heard); split;
                                   reflexivity].
        cbn. rewrite Ht. cbn. rewrite <- !app_assoc. reflexivity.
    + exists []. cbn [snd]. rewrite Ht. cbn [extend trace].
      split; [now rewrite <- app_assoc|left; reflexivity].
Qed.

Lemma search_rule_witness :
  handle_command keyed "research cats" quiet
  = (Ok tt,
     extend quiet
       [EvSpeak "Searching for re cats on the web.";
        EvBrowser "https://www.google.com/search?q=re%20cats"])
  /\ handle_command keyed "  Google SEARCH FOR search cats search " quiet
     = (Ok tt,
        extend quiet
          [EvSpeak "Searching for cats on the web.";
           EvBrowser "https://www.google.com/search?q=cats"])
  /\ query_of "google search for search cats search" "cats"
  /\ ~ query_of "google search for search cats search" "  search cats search"
  /\ ~ query_of "google search for search cats search" "   cats "
  /\ handle_command keyed "Search" (hearing [Recognized "Cats"])
     = (Ok tt,
        extend (hearing [])
          [EvSpeak "What should I search for?"; EvListen 5 8;
           EvSpeak "Searching for cats on the web.";
           EvBrowser "https://www.google.com/search?q=cats"]).
Proof.
  split; [|split].
  - destruct (search_rule keyed "research cats" quiet eq_refl eq_refl)
      as (Hrule & _ & _ & _ & Hquery & _).
    rewrite Hrule. apply Hquery. reflexivity.
  - destruct (search_rule keyed "  Google SEARCH FOR search cats search "
                quiet eq_refl eq_refl) as (Hrule & _ & _ & _ & Hquery & _).
    rewrite Hrule. apply Hquery. reflexivity.
  - destruct (search_rule keyed "  Google SEARCH FOR search cats search "
                quiet eq_refl eq_refl) as (_ & Hof & _).
    split; [apply Hof; reflexivity|].
    split; [intros H; apply Hof in H; discriminate H|].
    split; [intros H; apply Hof in H; discriminate H|].
    destruct (search_rule keyed "Search" (hearing [Recognized "Cats"])
                eq_refl eq_refl) as (Hrule & _).
    rewrite Hrule. reflexivity.
Defined.

(** * Further properties *)

(** ** The worker's turn and the poll *)

Lemma extend_nil (w : world) : extend w [] = w.
Proof. destruct w. unfold extend. cbn. now rewrite app_nil_r. Qed.

Lemma for_each_speak {A} (f : A -> string) (l : list A) (w : world) :
  for_each l (fun x => speak (f x)) w
  = (Ok tt, extend w (map (fun x => EvSpeak (f x)) l)).
Proof.
  revert w. induction l as [|x l IH]; intros w; cbn [for_each map].
  - now rewrite extend_nil.
  - rewrite run_speak, IH, extend_extend. reflexivity.
Qed.

Lemma filter_filter_none {A} (p q : A -> bool) (l : list A) :
  (forall x, p x = true -> q x = false) -> filter q (filter p l) = [].
Proof.
  intros H. induction l as [|x l IH]; [reflexivity|]. cbn.
  destruct (p x) eqn:E; [|exact IH]. cbn. now rewrite (H x E).
Qed.

Lemma filter_filter_all {A} (p : A -> bool) (l : list A) :
  filter p (filter p l) = filter p l.
Proof.
  induction l as [|x l IH]; [reflexivity|]. cbn.
  destruct (p x) eqn:E; [|exact IH]. cbn. now rewrite E, IH.
Qed.

Lemma reminder_worker_turn_eq (v : world) :
  reminder_worker_turn v
  = (Ok tt,
     extend
       (with_reminders v (filter (fun r => clock v <? fst r) (reminders v)))
       (map announce (filter (fun r => fst r <=? clock v) (reminders v))
        ++ [EvSleep 1000])).
Proof.
  unfold reminder_worker_turn, datetime_now, pollAndRemoveDue.
  unfold bind at 1. unfold get at 1. cbv iota beta.
  unfold bind at 1. unfold bind at 1. unfold get at 1. cbv iota beta.
  unfold bind at 1. unfold set_reminders at 1. cbv iota beta.
  unfold ret at 1. cbv iota beta.
  unfold bind at 1.
  rewrite (for_each_speak (fun r : Z * string => "Reminder: " ++ snd r)).
  rewrite run_emit, extend_extend. reflexivity.
Qed.

(** X1.  One turn of the worker: the reminders due at the clock are
    announced in the order in which they are stored, exactly they leave
    the list, the others stay in their order, and the turn ends with the
    pause of one second.  A turn that follows while the clock has not
    moved announces nothing and changes no reminder. *)
Theorem worker_turn_delivers_once (w : world) :
  let due := filter (fun r => fst r <=? clock w) (reminders w) in
  let kept := filter (fun r => clock w <? fst r) (reminders w) in
  let w1 :=
    extend (with_reminders w kept) (map announce due ++ [EvSleep 1000]) in
  reminder_worker_turn w = (Ok tt, w1)
  /\ reminder_worker_turn w1 = (Ok tt, extend w1 [EvSleep 1000]).
Proof.
  intros due kept w1.
  split; [apply reminder_worker_turn_eq|].
  rewrite reminder_worker_turn_eq. subst w1.
  cbn [clock reminders extend with_reminders].
  subst kept.
  rewrite filter_filter_all.
  rewrite (filter_filter_none (fun r => clock w <? fst r)
             (fun r => fst r <=? clock w)) by (intros x Hx; lia).
  cbn [map app]. unfold extend, with_reminders. cbn. reflexivity.
Qed.

Lemma filter_split_permutation {A} (p q : A -> bool) (l : list A) :
  (forall x, q x = negb (p x)) ->
  Permutation l (filter p l ++ filter q l).
Proof.
  intros H. induction l as [|x l IH]; [constructor|]. cbn.
  rewrite H. destruct (p x); cbn.
  - now constructor.
  - now apply Permutation_cons_app.
Qed.

(** X2.  A poll neither loses nor invents a reminder: what it returns
    together with what it leaves pending is a rearrangement of what was
    pending; it returns exactly the reminders with a fire time up to
    [now], leaves exactly the later ones, and touches nothing else of the
    world. *)
Theorem poll_partitions (now : Z) (w : world) :
  exists due,
    pollAndRemoveDue now w
    = (Ok due, with_reminders w (filter (fun r => now <? fst r) (reminders w)))
    /\ Permutation (reminders w)
         (due ++ filter (fun r => now <? fst r) (reminders w))
    /\ Forall (fun r => fst r <= now) due
    /\ Forall (fun r => now < fst r)
         (filter (fun r => now <? fst r) (reminders w))
    /\ (forall r, In r (reminders w) -> fst r <= now -> In r due).
Proof.
  exists (filter (fun r => fst r <=? now) (reminders w)).
  split; [reflexivity|]. split.
  { apply filter_split_permutation. intros x. lia. }
  split.
  { apply Forall_forall. intros r Hr. apply filter_In in Hr. lia. }
  split.
  { apply Forall_forall. intros r Hr. apply filter_In in Hr. lia. }
  intros r Hin Hle. apply filter_In. split; [exact Hin|lia].
Qed.

(** ** Scheduling *)

Lemma set_reminder_in_overflow (m : Z) (msg : string) (w : world) :
  0 <= clock w <= MAXDATETIME ->
  in_datetime_range (clock w + minutes_us m) = false ->
  set_reminder_in m msg w
  = (Raise OverflowError, extend w [EvSetReminderIn m msg]).
Proof.
  intros Hc Hout. unfold set_reminder_in.
  rewrite run_bind with (a := tt) (w' := extend w [EvSetReminderIn m msg])
    by reflexivity.
  unfold datetime_now. unfold bind at 1. unfold get at 1. cbv iota beta.
  cbn [clock extend].
  unfold bind at 1. unfold timedelta_minutes.
  fold (minutes_us m).
  destruct ((-999999999 * 86400 * 1000000 <=? minutes_us m)
            && (minutes_us m <? 1000000000 * 86400 * 1000000))%bool;
    [|reflexivity].
  unfold ret at 1. cbv iota beta.
  unfold bind at 1. unfold datetime_add. rewrite Hout. reflexivity.
Qed.

(** X3.  [set_reminder_in] does all or nothing.  When the fire time
    [now + minutes] is a datetime, the reminder is appended behind the
    pending ones and the confirmation is spoken; otherwise
    [OverflowError] is raised, the pending reminders are as before and
    nothing is spoken.  There is no other outcome, and no check of the
    sign of [minutes]. *)
Theorem set_reminder_in_all_or_nothing (m : Z) (msg : string) (w : world) :
  0 <= clock w <= MAXDATETIME ->
  set_reminder_in m msg w
  = if in_datetime_range (clock w + minutes_us m)
    then (Ok tt,
          extend
            (with_reminders w
               (reminders w ++ [(clock w + minutes_us m, msg)]))
            [EvSetReminderIn m msg;
             EvSpeak ("Okay. I will remind you in " ++ Str.of_int m
                      ++ " minutes about " ++ msg ++ ".")])
    else (Raise OverflowError, extend w [EvSetReminderIn m msg]).
Proof.
  intros Hc.
  destruct (in_datetime_range (clock w + minutes_us m)) eqn:E.
  - apply set_reminder_in_ok; [exact Hc|].
    unfold in_datetime_range in E. apply andb_prop in E. lia.
  - apply set_reminder_in_overflow; assumption.
Qed.

Lemma set_reminder_in_all_or_nothing_witness :
  set_reminder_in (-5) "tea" quiet
  = (Ok tt,
     extend (with_reminders quiet [(clock quiet - 300000000, "tea")])
       [EvSetReminderIn (-5) "tea";
        EvSpeak "Okay. I will remind you in -5 minutes about tea."]).
Proof.
  rewrite (set_reminder_in_all_or_nothing (-5) "tea" quiet).
  - reflexivity.
  - vm_compute. split; discriminate.
Defined.

(** X4.  A command in hours that carries a message: the minutes passed to
    [set_reminder_in] are sixty times the value of the digits. *)
Theorem hours_are_sixty_minutes (env : environment)
  (text ds u rest : string) (w : world) :
  Str.strip (Str.lower text)
  = "remind me in " ++ ds ++ " " ++ u ++ " " ++ rest ->
  Str.truthy ds = true ->
  Str.all Str.isdecimal ds = true ->
  within_cap env ds = true ->
  u = "hour" \/ u = "hours" ->
  handle_command env text w
  = set_reminder_in (60 * Str.digits_value ds 0) (message_or_default rest) w.
Proof.
  intros Ht Hds1 Hds2 Hcap Hu.
  rewrite (well_formed_reminder env text ds u rest w Ht Hds1 Hds2 Hcap).
  - replace (60 * Str.digits_value ds 0) with (Str.digits_value ds 0 * 60)
      by lia.
    destruct Hu as [->| ->]; reflexivity.
  - destruct Hu as [->| ->]; cbn; auto.
Qed.

Lemma hours_are_sixty_minutes_witness :
  handle_command keyed "Remind me in 3 hours to call the bank" quiet
  = set_reminder_in 180 "call the bank" quiet.
Proof.
  apply (hours_are_sixty_minutes keyed
           "Remind me in 3 hours to call the bank" "3" "hours"
           "to call the bank" quiet); auto.
Defined.

(** ** Reminder commands anywhere in the text *)

(** [re.search] returns the match at the first position of the text where
    the pattern matches: at every position before it the matcher fails. *)
Lemma search_first (r : Re.regex) (s : string) (m : Re.groups) :
  Re.search r s = Some m ->
  exists pre s0,
    s = pre ++ s0
    /\ Re.run r s0 [] (fun _ g => Some g) = Some m
    /\ forall pre1 s1,
         s = pre1 ++ s1 ->
         (String.length pre1 < String.length pre)%nat ->
         Re.run r s1 [] (fun _ g => Some g) = None.
Proof.
  induction s as [|a s IH]; cbn [Re.search]; intros H.
  - destruct (Re.run r EmptyString [] (fun _ g => Some g)) eqn:E;
      [|discriminate].
    exists EmptyString, EmptyString. rewrite E.
    repeat split; auto. cbn. intros; lia.
  - destruct (Re.run r (String a s) [] (fun _ g => Some g)) eqn:E.
    + exists EmptyString, (String a s). rewrite E.
      repeat split; auto. cbn. intros; lia.
    + destruct (IH H) as (pre & s0 & -> & Hrun & Hfirst).
      exists (String a pre), s0. repeat split; auto.
      intros [|b pre1] s1 Hs Hlen.
      * cbn in Hs. now subst s1.
      * cbn in Hs, Hlen. injection Hs as _ Hs.
        apply (Hfirst pre1 s1 Hs). lia.
Qed.

(** The matcher on a text that begins with a well-formed reminder
    command. *)
Lemma pattern_here_complete (ds u rest : string) :
  Str.truthy ds = true ->
  Str.all Str.isdecimal ds = true ->
  In u UNITS ->
  Re.run reminder_pattern
    ("remind me in " ++ ds ++ " " ++ u ++ " " ++ rest) [] (fun _ g => Some g)
  = Some [(3%nat, message_of rest); (2%nat, u); (1%nat, ds)].
Proof.
  intros Hds1 Hds2 Hu.
  destruct ds as [|d ds]; [discriminate|].
  cbn [Str.all] in Hds2. apply andb_prop in Hds2. destruct Hds2 as [Hd Hds].
  unfold reminder_pattern. fold UNIT.
  rewrite run_seq, run_lit_here, run_seq, run_group.
  set (Y := " " ++ u ++ " " ++ rest).
  change (String d ds ++ Y) with (String d (ds ++ Y)) at 1.
  cbn [Re.run].
  change (Re.cmatch Re.Cdigit d) with (Str.isdecimal d). rewrite Hd.
  assert (Hc : Re.run
                 (Re.Seq (Re.Lit " ")
                    (Re.Seq (Re.Group 2 UNIT)
                       (Re.Seq (Re.Lit " ")
                          (Re.Seq (Re.Opt (Re.Lit "to "))
                             (Re.Group 3 (Re.Star Re.Cany))))))
                 Y [(1%nat, Re.taken (String d ds ++ Y) Y)]
                 (fun _ g => Some g)
               = Some [(3%nat, message_of rest); (2%nat, u);
                       (1%nat, String d ds)]).
  { rewrite taken_append. unfold Y. rewrite run_unit by exact Hu.
    apply run_message. }
  apply star_all; [exact Hds|exact Hc|exact Hc].
Qed.

Lemma append_cancel (a b c : string) : a ++ b = a ++ c -> b = c.
Proof.
  induction a as [|x a IH]; [auto|]. cbn. intros H. injection H as H. auto.
Qed.

Lemma append_same_length (a b c d : string) :
  a ++ b = c ++ d -> String.length a = String.length c -> a = c /\ b = d.
Proof.
  revert c. induction a as [|x a IH]; intros [|y c] H Hlen;
    try discriminate Hlen.
  - auto.
  - cbn in H, Hlen. injection H as -> H. injection Hlen as Hlen.
    destruct (IH c H Hlen) as [-> ->]. auto.
Qed.

(** X5.  A text with a well-formed reminder command anywhere in it is
    handled by the leftmost such command: its digits give the minutes
    (sixty times as many for hours) and the line behind its unit gives
    the message.  Leftmost means that every way of reading a well-formed
    command in the text begins further to the right, or is this very
    reading.  The only other outcome is the [ValueError] of [int] for
    more digits than the interpreter converts; the usage hint and the
    later rules are out of reach. *)
Theorem reminder_command_anywhere (env : environment) (text : string)
  (w : world) :
  duration_shape (Str.strip (Str.lower text)) ->
  exists pre ds u rest,
    Str.strip (Str.lower text)
    = pre ++ "remind me in " ++ ds ++ " " ++ u ++ " " ++ rest
    /\ Str.truthy ds = true
    /\ Str.all Str.isdecimal ds = true
    /\ In u UNITS
    /\ (forall pre' ds' u' rest',
          Str.strip (Str.lower text)
          = pre' ++ "remind me in " ++ ds' ++ " " ++ u' ++ " " ++ rest' ->
          Str.truthy ds' = true ->
          Str.all Str.isdecimal ds' = true ->
          In u' UNITS ->
          (String.length pre < String.length pre')%nat
          \/ (pre' = pre /\ ds' = ds /\ u' = u /\ rest' = rest))
    /\ handle_command env text w
       = if within_cap env ds
         then set_reminder_in (minutes_of ds u) (message_or_default rest) w
         else (Raise ValueError, w).
Proof.
  intros Hshape. apply reminder_pattern_matches in Hshape.
  destruct (Re.search reminder_pattern (Str.strip (Str.lower text)))
    as [m|] eqn:E; [clear Hshape|tauto].
  destruct (search_first _ _ _ E) as (pre & s0 & Ht & Hrun & Hfirst).
  destruct (pattern_here_sound _ _ Hrun)
    as (ds & u & rest & -> & Hds1 & Hds2 & Hu & ->).
  exists pre, ds, u, rest. repeat (split; [assumption|]). split.
  - intros pre' ds' u' rest' Ht' Hds1' Hds2' Hu'.
    pose proof (pattern_here_complete ds' u' rest' Hds1' Hds2' Hu') as Hrun'.
    destruct (Nat.lt_trichotomy (String.length pre') (String.length pre))
      as [Hlt|[Heq|Hgt]].
    + rewrite (Hfirst pre' _ Ht' Hlt) in Hrun'. discriminate Hrun'.
    + right. rewrite Ht in Ht'. symmetry in Ht'.
      destruct (append_same_length _ _ _ _ Ht' Heq) as [-> Hs].
      rewrite Hs, Hrun in Hrun'. injection Hrun' as _ -> ->.
      repeat split. do 4 apply append_cancel in Hs.
      change (" " ++ rest' = " " ++ rest) in Hs.
      now apply append_cancel in Hs.
    + left. exact Hgt.
  - assert (Hin : Str.contains "remind me in" (Str.strip (Str.lower text))
                  = true).
    { rewrite Ht. apply contains_later. apply contains_here. reflexivity. }
    unfold handle_command.
    rewrite (contains_truthy "remind me in" _ eq_refl Hin), Hin.
    cbn [negb]. unfold handle_reminder_in. rewrite E.
    cbn [Re.group Nat.eqb]. unfold int_. rewrite Hds1, Hds2.
    destruct (within_cap env ds); reflexivity.
Qed.

Lemma reminder_command_anywhere_witness :
  handle_command keyed
    "Please remind me in 5 minutes to stretch, then remind me in 2 hours to eat"
    quiet
  = set_reminder_in 5 "stretch, then remind me in 2 hours to eat" quiet.
Proof.
  destruct (reminder_command_anywhere keyed
              "Please remind me in 5 minutes to stretch, then remind me in 2 hours to eat"
              quiet)
    as (pre & ds & u & rest & Ht & Hds1 & Hds2 & Hu & Hleft & Hcmd).
  { exists "please remind me in 5 minutes to stretch, then ", "2", "hours",
      "to eat".
    repeat split; cbn; auto. }
  destruct (Hleft "please " "5" "minutes"
              "to stretch, then remind me in 2 hours to eat")
    as [Hlt|(Hpre & Hds & Hu' & Hrest)]; [reflexivity ..| cbn; auto | |].
  - exfalso.
    repeat (destruct pre as [|? pre];
            [discriminate Ht|injection Ht as _ Ht; cbn in Hlt]).
    lia.
  - subst pre ds u rest. exact Hcmd.
Defined.

(** X6.  A duration whose fire time lies beyond the last datetime is not
    answered by the command "remind me in ...": [OverflowError] leaves
    [handle_command], and with it the step of the main loop that handed
    the command over; nothing is scheduled and no word is spoken. *)
Theorem overflow_leaves_handle_command (env : environment)
  (text ds u rest : string) (w : world) :
  Str.strip (Str.lower text)
  = "remind me in " ++ ds ++ " " ++ u ++ " " ++ rest ->
  Str.truthy ds = true ->
  Str.all Str.isdecimal ds = true ->
  within_cap env ds = true ->
  In u UNITS ->
  0 <= clock w <= MAXDATETIME ->
  MAXDATETIME < clock w + minutes_us (minutes_of ds u) ->
  Str.truthy text = true ->
  Str.contains_any EXIT_WORDS text = false ->
  let after :=
    extend w [EvSetReminderIn (minutes_of ds u) (message_or_default rest)] in
  handle_command env text w = (Raise OverflowError, after)
  /\ on_command env text w = (Raise OverflowError, after)
  /\ reminders after = reminders w.
Proof.
  intros Ht Hds1 Hds2 Hcap Hu Hc Hover Htext Hexit after.
  assert (H : handle_command env text w = (Raise OverflowError, after)).
  { rewrite (well_formed_reminder env text ds u rest w Ht Hds1 Hds2 Hcap Hu).
    apply set_reminder_in_overflow; [exact Hc|].
    unfold in_datetime_range.
    destruct (Z.leb_spec (clock w + minutes_us (minutes_of ds u)) MAXDATETIME);
      [lia|]. now rewrite andb_false_r. }
  split; [exact H|]. split; [|reflexivity].
  unfold on_command. rewrite Htext, Hexit. unfold bind. now rewrite H.
Qed.

Lemma overflow_leaves_handle_command_witness :
  on_command keyed "remind me in 10000000000 minutes to tea" quiet
  = (Raise OverflowError, extend quiet [EvSetReminderIn 10000000000 "tea"]).
Proof.
  apply (overflow_leaves_handle_command keyed
           "remind me in 10000000000 minutes to tea" "10000000000"
           "minutes" "to tea" quiet); try reflexivity.
  - cbn. auto.
  - vm_compute. split; discriminate.
Defined.

(** ** From the command to the announcement *)

(** X7.  A reminder command and the worker together.  After a well-formed
    command, in a world whose other reminders are not due at the time
    [later]: a turn of the worker at a time [later] before the fire time
    only pauses; a turn at a time [later] from the fire time on announces
    "Reminder: <message>" and leaves the pending reminders as they were
    before the command. *)
Theorem command_then_worker (env : environment) (text ds u rest : string)
  (w : world) (later : Z) :
  Str.strip (Str.lower text)
  = "remind me in " ++ ds ++ " " ++ u ++ " " ++ rest ->
  Str.truthy ds = true ->
  Str.all Str.isdecimal ds = true ->
  within_cap env ds = true ->
  In u UNITS ->
  0 <= clock w ->
  clock w + minutes_us (minutes_of ds u) <= MAXDATETIME ->
  Forall (fun r => later < fst r) (reminders w) ->
  let fireAt := clock w + minutes_us (minutes_of ds u) in
  exists w1,
    handle_command env text w = (Ok tt, w1)
    /\ (later < fireAt ->
        reminder_worker_turn (with_clock w1 later)
        = (Ok tt, extend (with_clock w1 later) [EvSleep 1000]))
    /\ (fireAt <= later ->
        reminder_worker_turn (with_clock w1 later)
        = (Ok tt,
           extend (with_clock (with_reminders w1 (reminders w)) later)
             [EvSpeak ("Reminder: " ++ message_or_default rest);
              EvSleep 1000])).
Proof.
  intros Ht Hds1 Hds2 Hcap Hu Hc Hf Hrs fireAt. subst fireAt.
  assert (Hm : 0 <= minutes_of ds u).
  { pose proof (digits_value_nonneg ds 0 Hds2 (Z.le_refl 0)).
    unfold minutes_of. destruct (Str.contains "hour" u); lia. }
  assert (Hmu : 0 <= minutes_us (minutes_of ds u))
    by (unfold minutes_us; lia).
  eexists. split.
  { rewrite (well_formed_reminder env text ds u rest w Ht Hds1 Hds2 Hcap Hu).
    apply set_reminder_in_ok; lia. }
  destruct (not_due_kept later (reminders w) Hrs) as [Hkeep Hdue].
  rewrite reminder_worker_turn_eq.
  cbn [clock reminders with_clock extend with_reminders].
  rewrite !filter_app, Hkeep, Hdue. cbn [filter fst app].
  split; intros Hlater.
  - destruct (Z.leb_spec (clock w + minutes_us (minutes_of ds u)) later);
      [lia|].
    destruct (Z.ltb_spec later (clock w + minutes_us (minutes_of ds u)));
      [|lia].
    reflexivity.
  - destruct (Z.leb_spec (clock w + minutes_us (minutes_of ds u)) later);
      [|lia].
    destruct (Z.ltb_spec later (clock w + minutes_us (minutes_of ds u)));
      [lia|].
    rewrite app_nil_r. reflexivity.
Qed.

Lemma command_then_worker_witness :
  exists w1,
    handle_command keyed "remind me in 2 hours to water the plants" quiet
    = (Ok tt, w1)
    /\ reminder_worker_turn (with_clock w1 (clock quiet + 7200000000))
       = (Ok tt,
          extend
            (with_clock (with_reminders w1 []) (clock quiet + 7200000000))
            [EvSpeak "Reminder: water the plants"; EvSleep 1000]).
Proof.
  destruct (command_then_worker keyed
              "remind me in 2 hours to water the plants" "2" "hours"
              "to water the plants" quiet (clock quiet + 7200000000))
    as (w1 & Hcmd & _ & Hdue); try reflexivity.
  - cbn. auto.
  - vm_compute. discriminate.
  - vm_compute. discriminate.
  - constructor.
  - exists w1. split; [exact Hcmd|]. apply Hdue. vm_compute. discriminate.
Defined.

(** ** The dialog: replies that are no number, and what is raised *)

(** X8.  In the dialog, a reply to the first question whose digit
    characters do not make a number that [int] converts (there is no
    digit in it, or a superscript digit, or more digits than the
    interpreter converts) ends the dialog with the notice of
    cancellation; the second question is not asked and the pending
    reminders are as before. *)
Theorem dialog_unparsable_reply_cancels (env : environment) (w w2 : world)
  (reply : string) :
  listen env 5 8 (extend w [EvSpeak ASK_WHEN]) = (Ok reply, w2) ->
  (Str.truthy (Str.filter Str.isdigit reply)
   && Str.all Str.isdecimal (Str.filter Str.isdigit reply)
   && within_cap env (Str.filter Str.isdigit reply))%bool = false ->
  handle_set_reminder env w = (Ok tt, extend w2 [EvSpeak CANCELLED])
  /\ reminders (extend w2 [EvSpeak CANCELLED]) = reminders w
  /\ (Str.all (fun c => negb (Str.isdigit c)) reply = true ->
      Str.truthy (Str.filter Str.isdigit reply) = false).
Proof.
  intros Hl Hbad.
  pose proof (listen_keeps env 5 8 (extend w [EvSpeak ASK_WHEN])) as Hk.
  rewrite Hl in Hk. cbn in Hk.
  split; [|split; [tauto|]].
  - unfold handle_set_reminder.
    rewrite run_speak, (run_bind _ _ _ _ _ Hl).
    unfold try_except. unfold bind at 1. unfold int_. rewrite Hbad.
    reflexivity.
  - clear. induction reply as [|c reply IH]; [reflexivity|].
    cbn [Str.all Str.filter]. intros H. apply andb_prop in H.
    destruct H as [Hc Hr]. destruct (Str.isdigit c); [discriminate|].
    exact (IH Hr).
Qed.

Lemma dialog_unparsable_reply_cancels_witness :
  handle_set_reminder keyed (hearing [Recognized "In a little while"])
  = (Ok tt,
     extend (hearing []) [EvSpeak ASK_WHEN; EvListen 5 8; EvSpeak CANCELLED]).
Proof.
  apply (dialog_unparsable_reply_cancels keyed
           (hearing [Recognized "In a little while"])
           (extend (hearing []) [EvSpeak ASK_WHEN; EvListen 5 8])
           "in a little while"); reflexivity.
Defined.

Lemma listen_raises (env : environment) (t l : Z) (w w' : world) (e : exn) :
  listen env t l w = (Raise e, w') -> e = WaitTimeoutError.
Proof.
  unfold listen, bind, emit, get, set_microphone, ret, raise. cbn.
  destruct (mic env); cbn; [|discriminate].
  destruct (microphone w) as [|[text| | |] q]; cbn; intros H;
    inversion H; reflexivity.
Qed.

Lemma set_reminder_in_raises (m : Z) (msg : string) (w w' : world)
  (e : exn) :
  set_reminder_in m msg w = (Raise e, w') -> e = OverflowError.
Proof.
  unfold set_reminder_in, bind, emit, datetime_now, get, timedelta_minutes,
    datetime_add, set_reminders, speak, emit, ret, raise.
  cbn.
  repeat match goal with
         | |- context [if ?b then _ else _] => destruct b; cbn
         end; intros H; inversion H; reflexivity.
Qed.

Lemma int_raises (env : environment) (s : string) (w w' : world) (e : exn) :
  int_ env s w = (Raise e, w') -> e = ValueError.
Proof.
  unfold int_.
  destruct (Str.truthy s && Str.all Str.isdecimal s && within_cap env s)%bool;
    intros H; inversion H; reflexivity.
Qed.

(** X9.  What the dialog raises.  When the listen for the minute count
    times out, [WaitTimeoutError] leaves the dialog: that listen stands
    before the [try].  When it returns, the dialog returns: whatever is
    raised behind it (by [int], by the listen for the message, by
    [set_reminder_in]) is caught and answered with the notice of
    cancellation. *)
Theorem dialog_raises_only_at_first_listen (env : environment) (w : world) :
  match listen env 5 8 (extend w [EvSpeak ASK_WHEN]) with
  | (Raise e, w2) =>
      e = WaitTimeoutError /\ handle_set_reminder env w = (Raise e, w2)
  | (Ok _, _) => exists w', handle_set_reminder env w = (Ok tt, w')
  end.
Proof.
  unfold handle_set_reminder. rewrite run_speak.
  destruct (listen env 5 8 (extend w [EvSpeak ASK_WHEN]))
    as [[reply|e] w2] eqn:Hl.
  - rewrite (run_bind _ _ _ _ _ Hl). unfold try_except.
    match goal with
    | |- exists w', match ?body with _ => _ end = _ =>
        destruct body as [[[]|e] w3] eqn:Hbody
    end.
    + eexists. reflexivity.
    + assert (He : is_Exception e = true).
      { revert Hbody. unfold bind at 1.
        destruct (int_ env (Str.filter Str.isdigit reply) w2)
          as [[mins|e1] w4] eqn:Hint.
        2:{ intros H. inversion H; subst.
            now rewrite (int_raises _ _ _ _ _ Hint). }
        rewrite run_speak. unfold bind at 1.
        destruct (listen env 5 8 (extend w4 [EvSpeak ASK_WHAT]))
          as [[msg|e2] w5] eqn:Hl2.
        2:{ intros H. inversion H; subst.
            now rewrite (listen_raises _ _ _ _ _ _ Hl2). }
        intros H. now rewrite (set_reminder_in_raises _ _ _ _ _ H). }
      rewrite He. eexists. reflexivity.
  - split; [exact (listen_raises _ _ _ _ _ _ Hl)|].
    unfold bind. now rewrite Hl.
Qed.

(** ** What a command does to the pending reminders *)

Section Steady.

Lemma steady_ret {A} (a : A) : steady (ret a).
Proof. intros w. split; reflexivity. Qed.

Lemma steady_raise {A} (e : exn) : steady (@raise A e).
Proof. intros w. split; reflexivity. Qed.

Lemma steady_get {A} (field : world -> A) : steady (get field).
Proof. intros w. split; reflexivity. Qed.

Lemma steady_emit (e : event) : steady (emit e).
Proof. intros w. split; reflexivity. Qed.

Lemma steady_set_microphone q : steady (set_microphone q).
Proof. intros w. split; reflexivity. Qed.

Lemma steady_set_stdin q : steady (set_stdin q).
Proof. intros w. split; reflexivity. Qed.

Lemma steady_bind {A B} (m : M A) (f : A -> M B) :
  steady m -> (forall a, steady (f a)) -> steady (bind m f).
Proof.
  intros Hm Hf w. unfold bind. destruct (Hm w) as [Hc Hr].
  destruct (m w) as [[a|e] w1]; cbn in *.
  - destruct (Hf a w1) as [Hc' Hr']. split; congruence.
  - split; assumption.
Qed.

Lemma steady_try {A} (body handler : M A) (caught : exn -> bool) :
  steady body -> steady handler -> steady (try_except body caught handler).
Proof.
  intros Hb Hh w. unfold try_except. destruct (Hb w) as [Hc Hr].
  destruct (body w) as [[a|e] w1]; cbn in *; [split; assumption|].
  destruct (caught e); cbn; [|split; assumption].
  destruct (Hh w1) as [Hc' Hr']. split; congruence.
Qed.

Lemma steady_for_each {A} (l : list A) (body : A -> M unit) :
  (forall x, steady (body x)) -> steady (for_each l body).
Proof.
  intros Hb. induction l as [|x l IH]; cbn [for_each].
  - apply steady_ret.
  - apply steady_bind; [apply Hb|intros _; exact IH].
Qed.

Lemma one_of_steady {A} (m : M A) : steady m -> schedules_at_most_one m.
Proof. intros H w. destruct (H w). auto. Qed.

Lemma one_bind_l {A B} (m : M A) (f : A -> M B) :
  steady m -> (forall a, schedules_at_most_one (f a)) ->
  schedules_at_most_one (bind m f).
Proof.
  intros Hm Hf w. unfold bind. destruct (Hm w) as [Hc Hr].
  destruct (m w) as [[a|e] w1]; cbn in *; [|auto].
  destruct (Hf a w1) as [Hc' Hr']. rewrite Hc, Hr in *. auto.
Qed.

Lemma one_bind_r {A B} (m : M A) (f : A -> M B) :
  schedules_at_most_one m -> (forall a, steady (f a)) ->
  schedules_at_most_one (bind m f).
Proof.
  intros Hm Hf w. unfold bind. destruct (Hm w) as [Hc Hr].
  destruct (m w) as [[a|e] w1]; cbn in *; [|auto].
  destruct (Hf a w1) as [Hc' Hr']. rewrite Hc', Hr'. auto.
Qed.

Lemma one_try {A} (body handler : M A) (caught : exn -> bool) :
  schedules_at_most_one body -> steady handler ->
  schedules_at_most_one (try_except body caught handler).
Proof.
  intros Hb Hh w. unfold try_except. destruct (Hb w) as [Hc Hr].
  destruct (body w) as [[a|e] w1]; cbn in *; [auto|].
  destruct (caught e); cbn; [|auto].
  destruct (Hh w1) as [Hc' Hr']. rewrite Hc', Hr'. auto.
Qed.

End Steady.

Lemma steady_listen (env : environment) (t l : Z) : steady (listen env t l).
Proof. intros w. destruct (listen_keeps env t l w). auto. Qed.

Lemma one_set_reminder_in (minutes : Z) (message : string) :
  0 <= minutes -> schedules_at_most_one (set_reminder_in minutes message).
Proof.
  intros Hm w.
  unfold set_reminder_in, bind, emit, datetime_now, get, timedelta_minutes,
    datetime_add, set_reminders, speak, emit, ret, raise.
  cbv beta iota.
  match goal with
  | |- context [if ?b then _ else _] => destruct b
  end; cbv beta iota; cbn [snd clock reminders]; [|auto].
  match goal with
  | |- context [if ?b then _ else _] => destruct b eqn:E
  end; cbv beta iota; cbn [snd clock reminders]; [|auto].
  split; [reflexivity|]. right. eexists _, message.
  split; [reflexivity|].
  unfold in_datetime_range in E. cbn [clock] in E.
  apply andb_prop in E. lia.
Qed.

Lemma one_after_int (env : environment) (s : string) (f : Z -> M unit) :
  (forall v, 0 <= v -> schedules_at_most_one (f v)) ->
  schedules_at_most_one (bind (int_ env s) f).
Proof.
  intros Hf w. unfold bind, int_.
  destruct (Str.truthy s && Str.all Str.isdecimal s && within_cap env s)%bool
    eqn:E; cbn; [|auto].
  apply Hf. apply andb_prop in E. destruct E as [E _].
  apply andb_prop in E. apply digits_value_nonneg; [tauto|lia].
Qed.

Ltac steady_step :=
  first
    [ apply steady_ret | apply steady_raise | apply steady_get
    | apply steady_emit | apply steady_listen
    | apply steady_set_microphone | apply steady_set_stdin
    | apply steady_bind; [|intros ?]
    | apply steady_try
    | apply steady_for_each; intros ?
    | match goal with
      | |- steady (if ?b then _ else _) => destruct b
      | |- steady (match ?x with _ => _ end) => destruct x
      | |- steady (let (_, _) := ?x in _) => destruct x
      end ].

Lemma steady_handle_weather env text : steady (handle_weather env text).
Proof.
  unfold handle_weather, get_weather, speak. repeat steady_step.
Qed.

Lemma steady_handle_news env : steady (handle_news env).
Proof.
  unfold handle_news, get_top_news, speak. repeat steady_step.
Qed.

Lemma steady_handle_search env text : steady (handle_search env text).
Proof.
  unfold handle_search, speak. repeat steady_step.
Qed.

Lemma one_handle_reminder_in env text :
  schedules_at_most_one (handle_reminder_in env text).
Proof.
  unfold handle_reminder_in.
  destruct (Re.search reminder_pattern text) as [m|];
    [|apply one_of_steady, steady_emit].
  destruct (Re.group m 1) as [g1|]; [|apply one_of_steady, steady_raise].
  destruct (Re.group m 2) as [unit_|]; [|apply one_of_steady, steady_raise].
  apply one_after_int. intros v Hv. apply one_set_reminder_in.
  destruct (Str.contains "hour" unit_); lia.
Qed.

Lemma one_handle_set_reminder env :
  schedules_at_most_one (handle_set_reminder env).
Proof.
  unfold handle_set_reminder.
  apply one_bind_l; [apply steady_emit|intros _].
  apply one_bind_l; [apply steady_listen|intros reply].
  apply one_try; [|apply steady_emit].
  apply one_after_int. intros v Hv.
  apply one_bind_l; [apply steady_emit|intros _].
  apply one_bind_l; [apply steady_listen|intros msg].
  apply one_set_reminder_in. exact Hv.
Qed.

Lemma one_handle_command env text :
  schedules_at_most_one (handle_command env text).
Proof.
  unfold handle_command.
  repeat match goal with
         | |- schedules_at_most_one (if ?b then _ else _) => destruct b
         end;
    first
      [ apply one_handle_reminder_in
      | apply one_handle_set_reminder
      | apply one_of_steady;
        first [ apply steady_handle_weather | apply steady_handle_news
              | apply steady_handle_search
              | unfold speak, datetime_now; repeat steady_step ] ].
Qed.

Lemma one_on_command env cmd : schedules_at_most_one (on_command env cmd).
Proof.
  unfold on_command.
  destruct (Str.truthy cmd).
  - destruct (Str.contains_any EXIT_WORDS cmd).
    + apply one_of_steady. unfold speak. repeat steady_step.
    + apply one_bind_r; [apply one_handle_command|intros _; apply steady_ret].
  - apply one_of_steady. unfold speak. repeat steady_step.
Qed.

Lemma steady_input : steady input.
Proof. unfold input. repeat steady_step. Qed.

(** X10.  Whatever the text and the world, [handle_command] leaves the
    clock as it is and either leaves the pending reminders as they are or
    appends one reminder behind them; no pending reminder is removed,
    changed or moved.  The fire time of an appended reminder is a datetime
    and is not before the clock.  The same holds for a whole turn of the
    main loop. *)
Theorem at_most_one_reminder_per_command (env : environment) (w : world) :
  (forall text,
     clock (snd (handle_command env text w)) = clock w
     /\ (reminders (snd (handle_command env text w)) = reminders w
         \/ exists when message,
              reminders (snd (handle_command env text w))
              = (reminders w ++ [(when, message)])%list
              /\ clock w <= when <= MAXDATETIME))
  /\ clock (snd (main_loop_turn env w)) = clock w
  /\ (reminders (snd (main_loop_turn env w)) = reminders w
      \/ exists when message,
           reminders (snd (main_loop_turn env w))
           = (reminders w ++ [(when, message)])%list
           /\ clock w <= when <= MAXDATETIME).
Proof.
  split; [intros text; apply one_handle_command|].
  assert (H : schedules_at_most_one (main_loop_turn env)).
  { unfold main_loop_turn.
    apply one_bind_l.
    { apply steady_try; [apply steady_listen|apply steady_ret]. }
    intros heard.
    destruct (Str.truthy heard && Str.contains_any WAKE_WORDS heard)%bool.
    - apply one_bind_l; [apply steady_emit|intros _].
      apply one_bind_l; [apply steady_listen|intros cmd].
      apply one_on_command.
    - apply one_try.
      + apply one_bind_l; [apply steady_input|intros _].
        apply one_bind_l; [apply steady_emit|intros _].
        apply one_bind_l; [apply steady_listen|intros cmd].
        apply one_on_command.
      + unfold speak. repeat steady_step. }
  apply H.
Qed.

(** ** The main loop: silence, the keyboard, leaving *)

Lemma listen_hears (env : environment) (t l : Z) (w : world) (h : string)
  (q : list audio) :
  mic env = true ->
  microphone w = Recognized h :: q ->
  listen env t l w
  = (Ok (Str.lower h), extend (with_microphone w q) [EvListen t l]).
Proof.
  intros Hmic Hq. unfold listen, bind, emit, get, set_microphone, ret.
  cbn. rewrite Hmic, Hq. reflexivity.
Qed.

Lemma listen_silence (env : environment) (t l : Z) (w : world) :
  mic env = true ->
  silent (microphone w) = true ->
  listen env t l w
  = (Raise WaitTimeoutError,
     extend (with_microphone w (tl (microphone w))) [EvListen t l]).
Proof.
  intros Hmic Hq. unfold listen, bind, emit, get, set_microphone, ret, raise.
  cbn. rewrite Hmic. cbn.
  destruct (microphone w) as [|[text| | |] q] eqn:E; try discriminate.
  - reflexivity.
  - reflexivity.
Qed.

Lemma input_line (w : world) (line : string) (keys : list keyboard) :
  stdin w = Line line :: keys ->
  input w = (Ok line, extend (with_stdin w keys) [EvInput]).
Proof.
  intros H. unfold input, bind, emit, get, set_stdin, ret. cbn.
  rewrite H. reflexivity.
Qed.

Lemma input_interrupt (w : world) (keys : list keyboard) :
  stdin w = Interrupt :: keys ->
  input w = (Raise KeyboardInterrupt, extend (with_stdin w keys) [EvInput]).
Proof.
  intros H. unfold input, bind, emit, get, set_stdin, ret, raise. cbn.
  rewrite H. reflexivity.
Qed.

Lemma input_eof (w : world) :
  stdin w = [] -> input w = (Raise EOFError, extend w [EvInput]).
Proof.
  intros H. unfold input, bind, emit, get, raise, extend.
  destruct w; cbn in *. subst. reflexivity.
Qed.

(** The first listen of a turn always comes back. *)
Lemma wake_listen (env : environment) (w : world) :
  exists heard w1,
    try_except (listen env 3 3) is_Exception (ret EmptyString) w
    = (Ok heard, w1)
    /\ (listen env 3 3 w = (Ok heard, w1)
        \/ heard = EmptyString
           /\ listen env 3 3 w = (Raise WaitTimeoutError, w1)).
Proof.
  unfold try_except.
  destruct (listen env 3 3 w) as [[heard|e] w1] eqn:E.
  - exists heard, w1. auto.
  - rewrite (listen_raises _ _ _ _ _ _ E). exists EmptyString, w1. auto.
Qed.

Lemma main_loop_turn_woken (env : environment) (w w1 : world)
  (heard : string) :
  try_except (listen env 3 3) is_Exception (ret EmptyString) w
  = (Ok heard, w1) ->
  wakes heard = true ->
  main_loop_turn env w
  = (cmd <- listen env 5 10 ;; on_command env cmd)
      (extend w1 [EvSpeak "Yes?"]).
Proof.
  intros H Hw. unfold main_loop_turn. rewrite (run_bind _ _ _ _ _ H).
  fold (wakes heard). rewrite Hw. now rewrite run_speak.
Qed.

Lemma main_loop_turn_unwoken (env : environment) (w w1 : world)
  (heard : string) :
  try_except (listen env 3 3) is_Exception (ret EmptyString) w
  = (Ok heard, w1) ->
  wakes heard = false ->
  main_loop_turn env w
  = try_except
      (_ <- input ;;
       speak "Listening for your command." ;;
       cmd <- listen env 6 12 ;;
       on_command env cmd)
      is_KeyboardInterrupt
      (speak "Shutting down. Bye." ;; ret true) w1.
Proof.
  intros H Hw. unfold main_loop_turn. rewrite (run_bind _ _ _ _ _ H).
  fold (wakes heard). now rewrite Hw.
Qed.

Lemma run_raise {A B} (m : M A) (f : A -> M B) (w w' : world) (e : exn) :
  m w = (Raise e, w') -> bind m f w = (Raise e, w').
Proof. intros H. unfold bind. now rewrite H. Qed.

(** X11.  Silence after the assistant was triggered ends the program.
    With a microphone: when the wake word was heard and nothing is said
    within the timeout of the listen for the command, [WaitTimeoutError]
    leaves the turn of the main loop; likewise when Enter was pressed and
    nothing is said.  Only the first listen of a turn, the one for the
    wake word, has its timeout caught. *)
Theorem silence_after_trigger_ends_the_loop (env : environment) (w : world) :
  mic env = true ->
  (forall h q,
     microphone w = Recognized h :: q ->
     wakes (Str.lower h) = true ->
     silent q = true ->
     main_loop_turn env w
     = (Raise WaitTimeoutError,
        extend (with_microphone w (tl q))
          [EvListen 3 3; EvSpeak "Yes?"; EvListen 5 10]))
  /\ (forall line keys,
        silent (microphone w) = true ->
        silent (tl (microphone w)) = true ->
        stdin w = Line line :: keys ->
        main_loop_turn env w
        = (Raise WaitTimeoutError,
           extend
             (with_stdin (with_microphone w (tl (tl (microphone w)))) keys)
             [EvListen 3 3; EvInput; EvSpeak "Listening for your command.";
              EvListen 6 12])).
Proof.
  intros Hmic. split.
  - intros h q Hq Hwake Hsilent.
    rewrite (main_loop_turn_woken env w
               (extend (with_microphone w q) [EvListen 3 3]) (Str.lower h)).
    + rewrite (run_raise _ _ _ _ _
                 (listen_silence env 5 10
                    (extend (extend (with_microphone w q) [EvListen 3 3])
                       [EvSpeak "Yes?"]) Hmic Hsilent)).
      cbn [microphone extend with_microphone].
      unfold extend, with_microphone. cbn. now rewrite <- !app_assoc.
    + unfold try_except. now rewrite (listen_hears env 3 3 w h q Hmic Hq).
    + exact Hwake.
  - intros line keys Hs1 Hs2 Hkeys.
    rewrite (main_loop_turn_unwoken env w
               (extend (with_microphone w (tl (microphone w))) [EvListen 3 3])
               EmptyString).
    + unfold try_except.
      rewrite (run_bind _ _ _ _ _
                 (input_line
                    (extend (with_microphone w (tl (microphone w)))
                       [EvListen 3 3]) line keys Hkeys)).
      rewrite run_speak.
      rewrite (run_raise _ _ _ _ _
                 (listen_silence env 6 12
                    (extend
                       (extend
                          (with_stdin
                             (extend (with_microphone w (tl (microphone w)))
                                [EvListen 3 3]) keys) [EvInput])
                       [EvSpeak "Listening for your command."]) Hmic Hs2)).
      cbn [is_KeyboardInterrupt microphone extend with_microphone with_stdin].
      unfold extend, with_microphone, with_stdin. cbn.
      now rewrite <- !app_assoc.
    + unfold try_except. now rewrite (listen_silence env 3 3 w Hmic Hs1).
    + reflexivity.
Qed.

Lemma silence_after_trigger_ends_the_loop_witness :
  main_loop_turn keyed (hearing [Recognized "Hey Assistant"])
  = (Raise WaitTimeoutError,
     extend (hearing []) [EvListen 3 3; EvSpeak "Yes?"; EvListen 5 10]).
Proof.
  apply (proj1 (silence_after_trigger_ends_the_loop keyed
                  (hearing [Recognized "Hey Assistant"]) eq_refl)
           "Hey Assistant" []); reflexivity.
Defined.

(** X12.  The keyboard at the prompt of a turn in which no wake word was
    heard.  Ctrl-C is answered with "Shutting down. Bye." and the loop is
    left; the end of the input is not handled: [EOFError] leaves the turn. *)
Theorem keyboard_at_the_prompt (env : environment) (w w1 : world)
  (heard : string) :
  try_except (listen env 3 3) is_Exception (ret EmptyString) w
  = (Ok heard, w1) ->
  wakes heard = false ->
  (forall keys,
     stdin w1 = Interrupt :: keys ->
     main_loop_turn env w
     = (Ok true,
        extend (with_stdin w1 keys) [EvInput; EvSpeak "Shutting down. Bye."]))
  /\ (stdin w1 = [] ->
      main_loop_turn env w = (Raise EOFError, extend w1 [EvInput])).
Proof.
  intros H Hw. rewrite (main_loop_turn_unwoken env w w1 heard H Hw).
  unfold try_except. split.
  - intros keys Hkeys.
    rewrite (run_raise _ _ _ _ _ (input_interrupt _ keys Hkeys)).
    cbn [is_KeyboardInterrupt]. rewrite run_speak.
    unfold ret. now rewrite extend_extend.
  - intros Hkeys. now rewrite (run_raise _ _ _ _ _ (input_eof _ Hkeys)).
Qed.

Lemma keyboard_at_the_prompt_witness :
  main_loop_turn keyed (with_stdin quiet [Interrupt])
  = (Ok true,
     extend quiet [EvListen 3 3; EvInput; EvSpeak "Shutting down. Bye."])
  /\ main_loop_turn keyed quiet
     = (Raise EOFError, extend quiet [EvListen 3 3; EvInput]).
Proof.
  split.
  - apply (proj1 (keyboard_at_the_prompt keyed (with_stdin quiet [Interrupt])
                    (extend (with_stdin quiet [Interrupt]) [EvListen 3 3])
                    EmptyString eq_refl eq_refl) []).
    reflexivity.
  - apply (proj2 (keyboard_at_the_prompt keyed quiet
                    (extend quiet [EvListen 3 3]) EmptyString
                    eq_refl eq_refl)).
    reflexivity.
Defined.

(** X13.  Leaving by command.  With a microphone, when the wake word is
    heard and the command heard next contains "quit", "exit" or "stop
    assistant" in whatever case it was said, the farewell is spoken and
    the loop is left: however many turns were still allowed, none of them
    is taken, so nothing is listened to after the farewell. *)
Theorem exit_command_leaves_the_loop (env : environment) (w : world)
  (h cmd : string) (q : list audio) (n : nat) :
  mic env = true ->
  microphone w = Recognized h :: Recognized cmd :: q ->
  wakes (Str.lower h) = true ->
  Str.contains_any EXIT_WORDS (Str.lower cmd) = true ->
  main_loop_turns env (S n) w
  = (Ok true,
     extend (with_microphone w q)
       [EvListen 3 3; EvSpeak "Yes?"; EvListen 5 10; EvSpeak "Goodbye!"]).
Proof.
  intros Hmic Hq Hwake Hexit. cbn [main_loop_turns].
  assert (Hturn : main_loop_turn env w
                  = (Ok true,
                     extend (with_microphone w q)
                       [EvListen 3 3; EvSpeak "Yes?"; EvListen 5 10;
                        EvSpeak "Goodbye!"])).
  { rewrite (main_loop_turn_woken env w
               (extend (with_microphone w (Recognized cmd :: q))
                  [EvListen 3 3]) (Str.lower h)).
    - rewrite (run_bind _ _ _ _ _
                 (listen_hears env 5 10
                    (extend
                       (extend (with_microphone w (Recognized cmd :: q))
                          [EvListen 3 3]) [EvSpeak "Yes?"])
                    cmd q Hmic eq_refl)).
      unfold on_command. rewrite Hexit.
      assert (Ht : Str.truthy (Str.lower cmd) = true).
      { destruct (Str.lower cmd); [discriminate Hexit|reflexivity]. }
      rewrite Ht, run_speak. unfold ret.
      unfold extend, with_microphone. cbn. now rewrite <- !app_assoc.
    - unfold try_except.
      now rewrite (listen_hears env 3 3 w h _ Hmic Hq).
    - exact Hwake. }
  now rewrite (run_bind _ _ _ _ _ Hturn).
Qed.

Lemma exit_command_leaves_the_loop_witness :
  main_loop_turns keyed 4
    (hearing [Recognized "OK Assistant"; Recognized "Please QUIT now";
              Recognized "hello"])
  = (Ok true,
     extend (hearing [Recognized "hello"])
       [EvListen 3 3; EvSpeak "Yes?"; EvListen 5 10; EvSpeak "Goodbye!"]).
Proof.
  apply (exit_command_leaves_the_loop keyed
           (hearing [Recognized "OK Assistant"; Recognized "Please QUIT now";
                     Recognized "hello"])
           "OK Assistant" "Please QUIT now" [Recognized "hello"] 3);
    reflexivity.
Defined.

(** ** Weather and news with a key *)

(** X14.  The weather handler with an API key: one request is made, for
    the extracted city in metric units.  A result is spoken as "Weather in
    <city>: <description>, temperature <t> C, feels like <f> C" (with the
    degree sign); a failure is spoken as the apology followed by its text,
    unless that text is empty: then the failure is taken for a result and
    "Weather in <city>: None" is spoken. *)
Theorem weather_with_key (env : environment) (text : string) (w : world) :
  Str.truthy (OPENWEATHER_API_KEY env) = true ->
  let city := extract_city text in
  let request :=
    EvGet "https://api.openweathermap.org/data/2.5/weather"
      [("q", city); ("appid", OPENWEATHER_API_KEY env); ("units", "metric")] in
  handle_weather env text w
  = (Ok tt,
     extend w
       [request;
        EvSpeak
          match weather_api w city with
          | WeatherOk desc temp feels =>
              "Weather in " ++ city ++ ": " ++ desc ++ ", temperature "
              ++ temp ++ degree ++ "C, feels like " ++ feels ++ degree ++ "C"
          | WeatherFailed reason =>
              if Str.truthy reason
              then "Sorry, I couldn't fetch weather. " ++ reason
              else "Weather in " ++ city ++ ": None"
          end]).
Proof.
  intros Hkey city request. unfold handle_weather, get_weather.
  fold city. rewrite Hkey. cbn [negb].
  unfold bind at 1. unfold bind at 1. rewrite run_emit. fold request.
  unfold bind at 1. unfold get at 1. cbv beta iota.
  cbn [weather_api extend].
  destruct (weather_api w city) as [desc temp feels|reason].
  - unfold ret at 1. cbv beta iota. cbn [truthy_opt fmt].
    unfold speak. now rewrite run_emit, extend_extend.
  - unfold ret at 1. cbv beta iota. cbn [truthy_opt fmt].
    destruct (Str.truthy reason); unfold speak;
      now rewrite run_emit, extend_extend.
Qed.

Lemma weather_with_key_witness :
  handle_weather keyed "weather in pune"
    (mkWorld 0 [] [] [] (fun _ => WeatherFailed EmptyString)
       (fun _ => NewsFailed EmptyString) [])
  = (Ok tt,
     extend
       (mkWorld 0 [] [] [] (fun _ => WeatherFailed EmptyString)
          (fun _ => NewsFailed EmptyString) [])
       [EvGet "https://api.openweathermap.org/data/2.5/weather"
          [("q", "pune"); ("appid", "k1"); ("units", "metric")];
        EvSpeak "Weather in pune: None"]).
Proof.
  apply (weather_with_key keyed "weather in pune"
           (mkWorld 0 [] [] [] (fun _ => WeatherFailed EmptyString)
              (fun _ => NewsFailed EmptyString) [])).
  reflexivity.
Defined.

Lemma for_each_read_out (titles : list string) (w : world) :
  for_each titles (fun h => speak h ;; emit (EvSleep 500)) w
  = (Ok tt, extend w (flat_map read_out titles)).
Proof.
  revert w. induction titles as [|h titles IH]; intros w;
    cbn [for_each flat_map].
  - now rewrite extend_nil.
  - unfold bind at 1. rewrite run_speak, run_emit. cbv beta iota.
    rewrite IH, !extend_extend. reflexivity.
Qed.

(** X15.  The news handler with an API key: one request is made, for
    country "in" and five headlines.  Whatever number of titles comes
    back, after "Here are the top headlines." each of them is spoken, in
    the order received, and followed by a pause of half a second.  A
    failure is spoken as the apology with its text, unless that text is
    empty: then the introduction is spoken and [TypeError] leaves the
    handler, which iterates over [None]. *)
Theorem news_with_key (env : environment) (w : world) :
  Str.truthy (NEWSAPI_KEY env) = true ->
  let request :=
    EvGet "https://newsapi.org/v2/top-headlines"
      [("apiKey", NEWSAPI_KEY env); ("country", "in"); ("pageSize", "5")] in
  handle_news env w
  = match news_api w 5 with
    | NewsOk titles =>
        (Ok tt,
         extend w
           ([request; EvSpeak "Here are the top headlines."]
            ++ flat_map read_out titles))
    | NewsFailed reason =>
        if Str.truthy reason
        then (Ok tt,
              extend w [request; EvSpeak ("Sorry, can't fetch news: " ++ reason)])
        else (Raise TypeError,
              extend w [request; EvSpeak "Here are the top headlines."])
    end.
Proof.
  intros Hkey request. unfold handle_news, get_top_news.
  rewrite Hkey. cbn [negb].
  change (Str.of_int 5) with "5". fold request.
  unfold bind at 1. unfold bind at 1. rewrite run_emit.
  unfold bind at 1. unfold get at 1. cbv beta iota.
  cbn [news_api extend].
  destruct (news_api w 5) as [titles|reason].
  - unfold ret at 1. cbv beta iota. cbn [truthy_opt].
    rewrite run_speak, for_each_read_out, !extend_extend. reflexivity.
  - unfold ret at 1. cbv beta iota. cbn [truthy_opt fmt].
    destruct (Str.truthy reason).
    + unfold speak. now rewrite run_emit, extend_extend.
    + rewrite run_speak. unfold raise. now rewrite extend_extend.
Qed.

Lemma news_with_key_witness :
  handle_news keyed
    (mkWorld 0 [] [] [] (fun _ => WeatherFailed EmptyString)
       (fun _ => NewsOk ["Rain ahead"; "Markets calm"]) [])
  = (Ok tt,
     extend
       (mkWorld 0 [] [] [] (fun _ => WeatherFailed EmptyString)
          (fun _ => NewsOk ["Rain ahead"; "Markets calm"]) [])
       [EvGet "https://newsapi.org/v2/top-headlines"
          [("apiKey", "k2"); ("country", "in"); ("pageSize", "5")];
        EvSpeak "Here are the top headlines.";
        EvSpeak "Rain ahead"; EvSleep 500;
        EvSpeak "Markets calm"; EvSleep 500]).
Proof.
  apply (news_with_key keyed
           (mkWorld 0 [] [] [] (fun _ => WeatherFailed EmptyString)
              (fun _ => NewsOk ["Rain ahead"; "Markets calm"]) [])).
  reflexivity.
Defined.

(** ** The city *)

Lemma mem_middle (x : string) (pre post : list string) :
  Str.mem x (pre ++ x :: post) = true.
Proof.
  unfold Str.mem. rewrite existsb_app. cbn.
  rewrite String.eqb_refl. now rewrite orb_true_r.
Qed.

Lemma index_middle (x : string) (pre post : list string) :
  ~ In x pre -> Str.index x (pre ++ x :: post) = Some (List.length pre).
Proof.
  induction pre as [|y pre IH]; cbn; intros Hx.
  - now rewrite String.eqb_refl.
  - destruct (String.eqb_spec y x) as [->|_]; [tauto|].
    rewrite IH by tauto. reflexivity.
Qed.

Lemma skipn_past_middle {A} (pre post : list A) (x : A) :
  skipn (S (List.length pre)) (pre ++ x :: post) = post.
Proof.
  induction pre as [|y pre IH]; [reflexivity|exact IH].
Qed.

Lemma mem_absent (x : string) (l : list string) :
  ~ In x l -> Str.mem x l = false.
Proof.
  unfold Str.mem. induction l as [|y l IH]; cbn; intros H; [reflexivity|].
  destruct (String.eqb_spec x y) as [->|_]; [tauto|]. apply IH. tauto.
Qed.

(** X16.  The city of a weather command.  When one of the words of the
    text is "in", the city is made of the words behind the first "in",
    joined by single spaces; when none is (an "in" inside a word does not
    count), the city is the default "New Delhi,IN". *)
Theorem city_is_behind_the_first_in (text : string) :
  (forall pre post,
     Str.split text = (pre ++ "in" :: post)%list ->
     ~ In "in" pre ->
     extract_city text = Str.join " " post)
  /\ (~ In "in" (Str.split text) -> extract_city text = DEFAULT_CITY).
Proof.
  split.
  - intros pre post Hsplit Hpre. unfold extract_city.
    rewrite Hsplit, mem_middle, index_middle by exact Hpre.
    now rewrite skipn_past_middle.
  - intros Hno. unfold extract_city. now rewrite mem_absent.
Qed.

Lemma city_is_behind_the_first_in_witness :
  extract_city "what's the weather  in new   york in winter"
  = "new york in winter"
  /\ extract_city "weather berlin inside" = "New Delhi,IN".
Proof.
  destruct (city_is_behind_the_first_in
              "what's the weather  in new   york in winter") as [Hin _].
  destruct (city_is_behind_the_first_in "weather berlin inside")
    as [_ Hdefault].
  split.
  - apply (Hin ["what's"; "the"; "weather"] ["new"; "york"; "in"; "winter"]).
    + reflexivity.
    + cbn. intros [H|[H|[H|[]]]]; discriminate H.
  - apply Hdefault. cbn. intros [H|[H|[H|[]]]]; discriminate H.
Defined.

(** ** Case and surrounding space *)

Lemma isspace_lower_char (c : ascii) :
  Str.isspace (Str.lower_char c) = Str.isspace c.
Proof.
  destruct c as [[] [] [] [] [] [] [] []]; reflexivity.
Qed.

Lemma lower_char_twice (c : ascii) :
  Str.lower_char (Str.lower_char c) = Str.lower_char c.
Proof.
  destruct c as [[] [] [] [] [] [] [] []]; reflexivity.
Qed.

Lemma lower_twice (s : string) : Str.lower (Str.lower s) = Str.lower s.
Proof.
  induction s as [|c s IH]; [reflexivity|]. cbn [Str.lower].
  now rewrite lower_char_twice, IH.
Qed.

Lemma truthy_lower (s : string) : Str.truthy (Str.lower s) = Str.truthy s.
Proof. now destruct s. Qed.

Lemma lower_lstrip (s : string) :
  Str.lower (Str.lstrip s) = Str.lstrip (Str.lower s).
Proof.
  induction s as [|c s IH]; [reflexivity|]. cbn [Str.lower Str.lstrip].
  rewrite isspace_lower_char. destruct (Str.isspace c); [exact IH|reflexivity].
Qed.

Lemma lower_rstrip (s : string) :
  Str.lower (Str.rstrip s) = Str.rstrip (Str.lower s).
Proof.
  induction s as [|c s IH]; [reflexivity|]. cbn [Str.lower Str.rstrip].
  rewrite isspace_lower_char, <- IH, truthy_lower.
  destruct (Str.isspace c && negb (Str.truthy (Str.rstrip s)))%bool;
    reflexivity.
Qed.

Lemma lower_strip (s : string) :
  Str.lower (Str.strip s) = Str.strip (Str.lower s).
Proof. unfold Str.strip. now rewrite lower_rstrip, lower_lstrip. Qed.

Lemma rstrip_twice (s : string) : Str.rstrip (Str.rstrip s) = Str.rstrip s.
Proof.
  induction s as [|c s IH]; [reflexivity|]. cbn [Str.rstrip].
  destruct (Str.isspace c && negb (Str.truthy (Str.rstrip s)))%bool eqn:E;
    [reflexivity|].
  cbn [Str.rstrip]. now rewrite IH, E.
Qed.

Lemma lstrip_rstrip_lstrip (s : string) :
  Str.lstrip (Str.rstrip (Str.lstrip s)) = Str.rstrip (Str.lstrip s).
Proof.
  induction s as [|c s IH]; [reflexivity|]. cbn [Str.lstrip].
  destruct (Str.isspace c) eqn:Hc; [exact IH|].
  cbn [Str.rstrip]. rewrite Hc. cbn [andb Str.lstrip]. now rewrite Hc.
Qed.

Lemma strip_twice (s : string) : Str.strip (Str.strip s) = Str.strip s.
Proof.
  unfold Str.strip. now rewrite lstrip_rstrip_lstrip, rstrip_twice.
Qed.

Lemma normal_form_twice (text : string) :
  Str.strip (Str.lower (Str.strip (Str.lower text)))
  = Str.strip (Str.lower text).
Proof. now rewrite lower_strip, lower_twice, strip_twice. Qed.

(** X17.  Upper case and space around a command do not matter:
    [handle_command] does to a text what it does to the text lowered and
    stripped, and so the same to two texts that differ only in case and
    in leading or trailing space characters. *)
Theorem handle_command_ignores_case_and_margin (env : environment)
  (text : string) (w : world) :
  handle_command env (Str.strip (Str.lower text)) w
  = handle_command env text w
  /\ handle_command env (Str.lower text) w = handle_command env text w
  /\ handle_command env (Str.strip text) w = handle_command env text w.
Proof.
  unfold handle_command.
  rewrite normal_form_twice, lower_twice, lower_strip, strip_twice. auto.
Qed.

Lemma all_isspace_lower (s : string) :
  Str.all Str.isspace (Str.lower s) = Str.all Str.isspace s.
Proof.
  induction s as [|c s IH]; [reflexivity|]. cbn [Str.all Str.lower].
  now rewrite isspace_lower_char, IH.
Qed.

(** X18.  A text of nothing but space characters (or an empty one) gets
    "I didn't catch that. Please repeat." and nothing else happens. *)
Theorem blank_text_is_not_caught (env : environment) (text : string)
  (w : world) :
  Str.all Str.isspace text = true ->
  handle_command env text w
  = (Ok tt, extend w [EvSpeak "I didn't catch that. Please repeat."]).
Proof.
  intros H. unfold handle_command, Str.strip.
  rewrite lstrip_spaces by (now rewrite all_isspace_lower).
  reflexivity.
Qed.

Lemma blank_text_is_not_caught_witness :
  handle_command keyed "   " quiet
  = (Ok tt, extend quiet [EvSpeak "I didn't catch that. Please repeat."]).
Proof.
  apply (blank_text_is_not_caught keyed "   " quiet). reflexivity.
Defined.

(** ** The wake words *)

Lemma contains_split (p s : string) :
  Str.contains p s = true -> exists pre suf, s = pre ++ p ++ suf.
Proof.
  induction s as [|c s IH]; cbn [Str.contains].
  - destruct (Str.startswith EmptyString p) eqn:E; [|discriminate].
    intros _. exists EmptyString, (Re.drop (String.length p) EmptyString).
    exact (startswith_split _ _ E).
  - destruct (Str.startswith (String c s) p) eqn:E.
    + intros _. exists EmptyString, (Re.drop (String.length p) (String c s)).
      exact (startswith_split _ _ E).
    + intros H. destruct (IH H) as (pre & suf & ->).
      exists (String c pre), suf. reflexivity.
Qed.

Lemma append_associative (a b c : string) : (a ++ b) ++ c = a ++ b ++ c.
Proof. induction a as [|x a IH]; [reflexivity|]. cbn. now rewrite IH. Qed.

Lemma contains_inner (pre p suf s : string) :
  Str.contains (pre ++ p ++ suf) s = true -> Str.contains p s = true.
Proof.
  intros H. apply contains_split in H. destruct H as (a & b & ->).
  rewrite !append_associative.
  apply contains_later. apply contains_later.
  apply contains_here. apply startswith_append.
Qed.

(** X19.  The three wake words come to one: a text wakes the assistant
    exactly when it is not empty and "assistant" occurs in it, at any
    place and also inside a longer word. *)
Theorem wake_is_assistant_somewhere (heard : string) :
  wakes heard = Str.contains "assistant" heard.
Proof.
  unfold wakes, WAKE_WORDS, Str.contains_any. cbn [existsb].
  destruct (Str.contains "assistant" heard) eqn:E.
  - cbn [orb]. now rewrite (contains_truthy "assistant" _ eq_refl E).
  - destruct (Str.contains "hey assistant" heard) eqn:E1.
    { apply (contains_inner "hey " "assistant" EmptyString) in E1.
      congruence. }
    destruct (Str.contains "ok assistant" heard) eqn:E2.
    { apply (contains_inner "ok " "assistant" EmptyString) in E2.
      congruence. }
    now rewrite andb_false_r.
Qed.

(** ** What a command never does *)

Ltac adds_any :=
  repeat first
    [ apply adds_emit; reflexivity
    | apply adds_get
    | apply adds_raise
    | apply (adds_ret _ anything); exact I
    | apply adds_set_reminders
    | apply adds_set_microphone
    | apply adds_try
    | apply adds_for_each; intros ?
    | adds_next
    | adds_if ].

Ltac unfold_handlers :=
  unfold handle_command, handle_reminder_in, handle_set_reminder,
    handle_weather, handle_news, handle_search, get_weather, get_top_news,
    set_reminder_in, listen, speak, int_, timedelta_minutes, datetime_add,
    datetime_now.

(** X20.  The program's own requests, the calls of [requests.get], go to
    the weather and the news service only, and only with a key: when both
    API keys are missing, or when the text has none of "weather", "news"
    and "headlines" in it, [handle_command] does not call [requests.get],
    whatever is heard on the way.  (The speech recogniser behind [listen]
    is not a call of [requests.get]; a command may well listen.) *)
Theorem no_requests_get_unless_asked (env : environment) (text : string)
  (w : world) :
  (OPENWEATHER_API_KEY env = EmptyString /\ NEWSAPI_KEY env = EmptyString)
  \/ (Str.contains "weather" (Str.strip (Str.lower text)) = false
      /\ Str.contains "news" (Str.strip (Str.lower text)) = false
      /\ Str.contains "headlines" (Str.strip (Str.lower text)) = false) ->
  exists evs,
    trace (snd (handle_command env text w)) = (trace w ++ evs)%list
    /\ Forall not_requests_get evs.
Proof.
  intros H.
  assert (Hadds : adds not_requests_get anything (handle_command env text)).
  { unfold_handlers. destruct H as [[Hw Hn]|(Hw & Hn & Hh)].
    - rewrite Hw, Hn. cbn [Str.truthy negb]. adds_any.
    - rewrite Hw, Hn, Hh. cbn [orb]. adds_any. }
  destruct (Hadds w) as (evs & Ht & Hevs & _). eauto.
Qed.

Lemma no_requests_get_unless_asked_witness :
  (exists evs,
     trace (snd (handle_command keyless "what's the weather in pune" quiet))
     = (trace quiet ++ evs)%list
     /\ Forall not_requests_get evs)
  /\ (exists evs,
        trace (snd (handle_command keyed "Search for umbrellas" quiet))
        = (trace quiet ++ evs)%list
        /\ Forall not_requests_get evs)
  /\ (exists evs,
        trace (snd (handle_command keyed "Set reminder"
                      (hearing [Recognized "5"; Recognized "tea"])))
        = (trace (hearing [Recognized "5"; Recognized "tea"]) ++ evs)%list
        /\ In (EvListen 5 8) evs
        /\ Forall not_requests_get evs).
Proof.
  split; [|split].
  - apply (no_requests_get_unless_asked keyless "what's the weather in pune"
             quiet).
    left. split; reflexivity.
  - apply (no_requests_get_unless_asked keyed "Search for umbrellas" quiet).
    right. repeat split; reflexivity.
  - destruct (no_requests_get_unless_asked keyed "Set reminder"
                (hearing [Recognized "5"; Recognized "tea"]))
      as (evs & Ht & Hevs).
    { right. repeat split; reflexivity. }
    exists evs. split; [exact Ht|]. split; [|exact Hevs].
    cbn in Ht. rewrite <- Ht. cbn. tauto.
Defined.

Lemma startswith_contains (p q rest t : string) :
  p = q ++ rest -> Str.startswith t p = true -> Str.contains q t = true.
Proof.
  intros -> H. apply startswith_split in H. rewrite H.
  rewrite append_associative. apply contains_here, startswith_append.
Qed.

(** X21.  The browser is opened by the search rule only: for a text that
    has neither "search" nor "google" in it, [handle_command] opens no
    page, whatever is heard on the way. *)
Theorem no_browser_unless_asked (env : environment) (text : string)
  (w : world) :
  Str.contains "search" (Str.strip (Str.lower text)) = false ->
  Str.contains "google" (Str.strip (Str.lower text)) = false ->
  exists evs,
    trace (snd (handle_command env text w)) = (trace w ++ evs)%list
    /\ Forall not_browser evs.
Proof.
  intros Hs Hg.
  assert (H1 : Str.startswith (Str.strip (Str.lower text)) "search for"
               = false).
  { destruct (Str.startswith (Str.strip (Str.lower text)) "search for")
      eqn:E; [|reflexivity].
    apply (startswith_contains "search for" "search" " for") in E;
      [congruence|reflexivity]. }
  assert (H2 : Str.startswith (Str.strip (Str.lower text)) "google" = false).
  { destruct (Str.startswith (Str.strip (Str.lower text)) "google")
      eqn:E; [|reflexivity].
    apply contains_here in E. congruence. }
  assert (Hadds : adds not_browser anything (handle_command env text)).
  { unfold handle_command. rewrite H1, H2, Hs. cbn [orb].
    unfold handle_reminder_in, handle_set_reminder, handle_weather,
      handle_news, get_weather, get_top_news, set_reminder_in, listen,
      speak, int_, timedelta_minutes, datetime_add, datetime_now.
    adds_any. }
  destruct (Hadds w) as (evs & Ht & Hevs & _). eauto.
Qed.

Lemma no_browser_unless_asked_witness :
  exists evs,
    trace (snd (handle_command keyed "tell me the news"
                  (hearing [Recognized "open a page"])))
    = ([] ++ evs)%list
    /\ Forall not_browser evs.
Proof.
  apply (no_browser_unless_asked keyed "tell me the news"
           (hearing [Recognized "open a page"])); reflexivity.
Defined.

(** ** The dialog: what is scheduled *)

(** X22.  In the dialog the count is always taken in minutes and is the
    number written by the decimal digits of the reply, in their order;
    every other character of the reply, a unit such as "hours" included,
    is dropped.  With a message heard, and the fire time a datetime, the
    reminder is scheduled for that many minutes with that message. *)
Theorem dialog_counts_digits_as_minutes (env : environment)
  (w w2 w3 : world) (reply msg : string) :
  listen env 5 8 (extend w [EvSpeak ASK_WHEN]) = (Ok reply, w2) ->
  let digits := Str.filter Str.isdigit reply in
  let mins := Str.digits_value digits 0 in
  Str.truthy digits = true ->
  Str.all Str.isdecimal digits = true ->
  within_cap env digits = true ->
  listen env 5 8 (extend w2 [EvSpeak ASK_WHAT]) = (Ok msg, w3) ->
  Str.truthy msg = true ->
  0 <= clock w ->
  clock w + minutes_us mins <= MAXDATETIME ->
  handle_set_reminder env w
  = (Ok tt,
     extend
       (with_reminders w3
          (reminders w ++ [(clock w + minutes_us mins, msg)]))
       [EvSetReminderIn mins msg;
        EvSpeak ("Okay. I will remind you in " ++ Str.of_int mins
                 ++ " minutes about " ++ msg ++ ".")]).
Proof.
  intros Hl digits mins Hd1 Hd2 Hcap Hl' Hmsg Hc Hf.
  pose proof (listen_keeps env 5 8 (extend w [EvSpeak ASK_WHEN])) as Hk.
  rewrite Hl in Hk. cbn in Hk. destruct Hk as [Hr2 Hc2].
  pose proof (listen_keeps env 5 8 (extend w2 [EvSpeak ASK_WHAT])) as Hk.
  rewrite Hl' in Hk. cbn in Hk. destruct Hk as [Hr3 Hc3].
  assert (Hmins : 0 <= mins).
  { apply digits_value_nonneg; [exact Hd2|lia]. }
  assert (Hint : int_ env digits w2 = (Ok mins, w2)).
  { unfold int_. now rewrite Hd1, Hd2, Hcap. }
  unfold handle_set_reminder.
  rewrite run_speak, (run_bind _ _ _ _ _ Hl).
  unfold try_except. fold digits.
  rewrite (run_bind _ _ _ _ _ Hint), run_speak, (run_bind _ _ _ _ _ Hl').
  rewrite Hmsg. cbn [negb].
  rewrite set_reminder_in_ok.
  - rewrite Hr3, Hr2, Hc3, Hc2. reflexivity.
  - rewrite Hc3, Hc2. unfold minutes_us in *. lia.
  - rewrite Hc3, Hc2. unfold minutes_us in *. lia.
Qed.

Lemma dialog_counts_digits_as_minutes_witness :
  handle_set_reminder keyed
    (hearing [Recognized "In 2 hours"; Recognized "Feed the cat"])
  = (Ok tt,
     extend
       (with_reminders (hearing [])
          [(clock quiet + minutes_us 2, "feed the cat")])
       [EvSpeak ASK_WHEN; EvListen 5 8; EvSpeak ASK_WHAT; EvListen 5 8;
        EvSetReminderIn 2 "feed the cat";
        EvSpeak "Okay. I will remind you in 2 minutes about feed the cat."]).
Proof.
  apply (dialog_counts_digits_as_minutes keyed
           (hearing [Recognized "In 2 hours"; Recognized "Feed the cat"])
           (extend (hearing [Recognized "Feed the cat"])
              [EvSpeak ASK_WHEN; EvListen 5 8])
           (extend (hearing [])
              [EvSpeak ASK_WHEN; EvListen 5 8; EvSpeak ASK_WHAT;
               EvListen 5 8])
           "in 2 hours" "feed the cat"); try reflexivity.
  - vm_compute. discriminate.
  - vm_compute. discriminate.
Defined.
